(** * Ipv6EndPointDemux: endpoint allocation and arrival lookup

    A shallow embedding of [src/internet/model/ipv6-end-point-demux.cc]
    and the properties of its allocation, deallocation and lookup
    operations.

    The demultiplexer owns a [std::list<Ipv6EndPoint*>]; an element of that
    list is embedded as a cell: the address of the heap object together
    with the object's current fields.  Ports are [uint16_t] values carried
    as [Z]; the only arithmetic on them, [++port], has its wrap-around
    written out. *)

From Stdlib Require Import ZArith List Bool Lia Permutation.
Import ListNotations.
Local Open Scope Z_scope.

(** ** Addresses, devices, interfaces *)

(** An [Ipv6Address] is compared with [operator==] only; it is carried as
    the 128-bit number formed by its sixteen bytes. *)
Definition Ipv6Address := Z.

Module Ipv6Addr.
(** [Ipv6Address::GetAny ()], the address [::]. *)
Definition GetAny : Ipv6Address := 0.
(** [Ipv6Address::GetAllRoutersMulticast ()], the address [ff02::2]. *)
Definition GetAllRoutersMulticast : Ipv6Address := 0xff02 * 2 ^ 112 + 2.
Definition eqb (a b : Ipv6Address) : bool := Z.eqb a b.
End Ipv6Addr.

(** [Ptr<NetDevice>]: [None] is the null pointer, [Some n] the device
    object at address [n]. *)
Definition NetDevicePtr := option nat.

Definition dev_eqb (a b : NetDevicePtr) : bool :=
  match a, b with
  | None, None => true
  | Some x, Some y => Nat.eqb x y
  | _, _ => false
  end.

(** A [Ptr<NetDevice>] used as a condition: true unless null. *)
Definition is_bound (p : NetDevicePtr) : bool :=
  match p with Some _ => true | None => false end.

(** [Ptr<Ipv6Interface>]: the lookup only calls [GetDevice ()] on it. *)
Record Ipv6Interface := mkInterface { GetDevice : NetDevicePtr }.

Definition uint16_max : Z := 65535.

(** ** Endpoints *)

(** The fields of an [Ipv6EndPoint], named after the accessors the
    demultiplexer calls. *)
Record Ipv6EndPoint := mkEndPoint {
  GetLocalAddress : Ipv6Address;
  GetLocalPort : Z;
  GetPeerAddress : Ipv6Address;
  GetPeerPort : Z;
  GetBoundNetDevice : NetDevicePtr;
  IsRxEnabled : bool
}.

(** Modelled from the spec: the constructor [Ipv6EndPoint (addr, port)]
    (ipv6-end-point.cc is not part of the sources at hand).  It stores the
    local address and port and leaves the peer a wildcard (address any,
    port 0); a new endpoint has no bound device and receives. *)
Definition Ipv6EndPoint_new (addr : Ipv6Address) (port : Z) : Ipv6EndPoint :=
  {| GetLocalAddress := addr;
     GetLocalPort := port;
     GetPeerAddress := Ipv6Addr.GetAny;
     GetPeerPort := 0;
     GetBoundNetDevice := None;
     IsRxEnabled := true |}.

(** Modelled from the spec: [Ipv6EndPoint::SetPeer (addr, port)], a plain
    mutator of the two peer fields. *)
Definition SetPeer (e : Ipv6EndPoint) (addr : Ipv6Address) (port : Z)
  : Ipv6EndPoint :=
  {| GetLocalAddress := GetLocalAddress e;
     GetLocalPort := GetLocalPort e;
     GetPeerAddress := addr;
     GetPeerPort := port;
     GetBoundNetDevice := GetBoundNetDevice e;
     IsRxEnabled := IsRxEnabled e |}.

(** Modelled from the spec: [Ipv6EndPoint::SetRxEnabled (enabled)], the
    mutator of the receive flag. *)
Definition SetRxEnabled (e : Ipv6EndPoint) (enabled : bool) : Ipv6EndPoint :=
  {| GetLocalAddress := GetLocalAddress e;
     GetLocalPort := GetLocalPort e;
     GetPeerAddress := GetPeerAddress e;
     GetPeerPort := GetPeerPort e;
     GetBoundNetDevice := GetBoundNetDevice e;
     IsRxEnabled := enabled |}.

(** Modelled from the spec: [Ipv6EndPoint::BindToNetDevice (netdevice)],
    the mutator of the bound device. *)
Definition BindToNetDevice (e : Ipv6EndPoint) (netdevice : NetDevicePtr)
  : Ipv6EndPoint :=
  {| GetLocalAddress := GetLocalAddress e;
     GetLocalPort := GetLocalPort e;
     GetPeerAddress := GetPeerAddress e;
     GetPeerPort := GetPeerPort e;
     GetBoundNetDevice := netdevice;
     IsRxEnabled := IsRxEnabled e |}.

(** [Ipv6EndPoint*]: the address of an endpoint object. *)
Definition EndPointPtr := nat.

(** One element of the list: the pointer and the object it points to. *)
Definition Cell : Type := EndPointPtr * Ipv6EndPoint.

Definition EndPoints := list Cell.

(** [new Ipv6EndPoint (...)] returns an address that differs from the
    address of every endpoint still alive, here every one in the list. *)
Definition new_ptr (eps : EndPoints) : EndPointPtr :=
  S (list_max (map fst eps)).

(** ** The demultiplexer *)

Record Ipv6EndPointDemux := mkDemux {
  m_endPoints : EndPoints;
  m_ephemeral : Z;
  m_portFirst : Z;
  m_portLast : Z
}.

(** A demultiplexer without endpoints whose ephemeral range is
    [first..last] and whose cursor starts on [first]. *)
Definition fresh (first last : Z) : Ipv6EndPointDemux :=
  {| m_endPoints := []; m_ephemeral := first;
     m_portFirst := first; m_portLast := last |}.

(** The constructor: cursor 49152, range 49152..65535. *)
Definition Ipv6EndPointDemux_new : Ipv6EndPointDemux := fresh 49152 65535.

Definition with_endPoints (d : Ipv6EndPointDemux) (eps : EndPoints) :=
  {| m_endPoints := eps; m_ephemeral := m_ephemeral d;
     m_portFirst := m_portFirst d; m_portLast := m_portLast d |}.

Definition with_ephemeral (d : Ipv6EndPointDemux) (port : Z) :=
  {| m_endPoints := m_endPoints d; m_ephemeral := port;
     m_portFirst := m_portFirst d; m_portLast := m_portLast d |}.

(** [m_endPoints.push_back (endPoint)] *)
Definition push_back (d : Ipv6EndPointDemux) (c : Cell) :=
  with_endPoints d (m_endPoints d ++ [c]).

(** *** LookupPortLocal, LookupLocal *)

Definition LookupPortLocal (eps : EndPoints) (port : Z) : bool :=
  existsb (fun c => GetLocalPort (snd c) =? port) eps.

Definition LookupLocal (eps : EndPoints) (boundNetDevice : NetDevicePtr)
    (addr : Ipv6Address) (port : Z) : bool :=
  existsb (fun c =>
             (GetLocalPort (snd c) =? port)
             && Ipv6Addr.eqb (GetLocalAddress (snd c)) addr
             && dev_eqb (GetBoundNetDevice (snd c)) boundNetDevice) eps.

(** *** AllocateEphemeralPort *)

(** How one run of the [do ... while] loop ends: by [return 0] when the
    counter is used up, or by leaving the loop on a port that no endpoint
    holds. *)
Inductive scan_result :=
| ScanExhausted
| ScanFound (port : Z).

(** [++port] on a [uint16_t], then the wrap into the range. *)
Definition next_port (first last port : Z) : Z :=
  let port := (port + 1) mod (uint16_max + 1) in
  if (port <? first) || (port >? last) then first else port.

(** The loop, one iteration per unit of [fuel]; [None] when the fuel runs
    out before the loop ends. *)
Fixpoint ephemeral_loop (fuel : nat) (eps : EndPoints) (first last : Z)
    (count port : Z) : option scan_result :=
  match fuel with
  | O => None
  | S fuel =>
      if count <? 0 then Some ScanExhausted
      else
        let count := count - 1 in
        let port := next_port first last port in
        if LookupPortLocal eps port
        then ephemeral_loop fuel eps first last count port
        else Some (ScanFound port)
  end.

(** The loop runs at most [count + 2] times (see [ephemeral_loop_total]),
    which is the fuel it gets. *)
Definition ephemeral_fuel (count : Z) : nat := S (S (Z.to_nat count)).

Definition ephemeral_scan (d : Ipv6EndPointDemux) : option scan_result :=
  let port := m_ephemeral d in
  let count := m_portLast d - m_portFirst d in
  ephemeral_loop (ephemeral_fuel count) (m_endPoints d)
    (m_portFirst d) (m_portLast d) count port.

(** Returns the port (0 for none) and the demultiplexer with its cursor
    moved.  The last branch is never taken: the fuel is enough. *)
Definition AllocateEphemeralPort (d : Ipv6EndPointDemux)
  : Z * Ipv6EndPointDemux :=
  match ephemeral_scan d with
  | Some (ScanFound port) => (port, with_ephemeral d port)
  | Some ScanExhausted => (0, d)
  | None => (0, d)
  end.

(** *** Allocate, in its five forms *)

(** [Allocate ()] *)
Definition Allocate (d : Ipv6EndPointDemux)
  : option Cell * Ipv6EndPointDemux :=
  let '(port, d) := AllocateEphemeralPort d in
  if port =? 0 then (None, d)
  else
    let endPoint :=
      (new_ptr (m_endPoints d), Ipv6EndPoint_new Ipv6Addr.GetAny port) in
    (Some endPoint, push_back d endPoint).

(** [Allocate (Ipv6Address address)] *)
Definition Allocate_addr (d : Ipv6EndPointDemux) (address : Ipv6Address)
  : option Cell * Ipv6EndPointDemux :=
  let '(port, d) := AllocateEphemeralPort d in
  if port =? 0 then (None, d)
  else
    let endPoint := (new_ptr (m_endPoints d), Ipv6EndPoint_new address port) in
    (Some endPoint, push_back d endPoint).

(** [Allocate (Ptr<NetDevice> boundNetDevice, Ipv6Address address,
    uint16_t port)] *)
Definition Allocate_dev_addr_port (d : Ipv6EndPointDemux)
    (boundNetDevice : NetDevicePtr) (address : Ipv6Address) (port : Z)
  : option Cell * Ipv6EndPointDemux :=
  if LookupLocal (m_endPoints d) boundNetDevice address port
     || LookupLocal (m_endPoints d) None address port
  then (None, d)
  else
    let endPoint := (new_ptr (m_endPoints d), Ipv6EndPoint_new address port) in
    (Some endPoint, push_back d endPoint).

(** [Allocate (Ptr<NetDevice> boundNetDevice, uint16_t port)] *)
Definition Allocate_dev_port (d : Ipv6EndPointDemux)
    (boundNetDevice : NetDevicePtr) (port : Z)
  : option Cell * Ipv6EndPointDemux :=
  Allocate_dev_addr_port d boundNetDevice Ipv6Addr.GetAny port.

(** [Allocate (boundNetDevice, localAddress, localPort, peerAddress,
    peerPort)] *)
Definition Allocate_full (d : Ipv6EndPointDemux)
    (boundNetDevice : NetDevicePtr) (localAddress : Ipv6Address)
    (localPort : Z) (peerAddress : Ipv6Address) (peerPort : Z)
  : option Cell * Ipv6EndPointDemux :=
  if existsb (fun c =>
                (GetLocalPort (snd c) =? localPort)
                && Ipv6Addr.eqb (GetLocalAddress (snd c)) localAddress
                && (GetPeerPort (snd c) =? peerPort)
                && Ipv6Addr.eqb (GetPeerAddress (snd c)) peerAddress
                && (dev_eqb (GetBoundNetDevice (snd c)) boundNetDevice
                    || negb (is_bound (GetBoundNetDevice (snd c)))))
       (m_endPoints d)
  then (None, d)
  else
    let endPoint :=
      (new_ptr (m_endPoints d),
       SetPeer (Ipv6EndPoint_new localAddress localPort) peerAddress peerPort)
    in
    (Some endPoint, push_back d endPoint).

(** *** DeAllocate *)

(** Erases the first element equal to the pointer and stops. *)
Fixpoint erase_first (endPoint : EndPointPtr) (eps : EndPoints) : EndPoints :=
  match eps with
  | [] => []
  | c :: rest =>
      if Nat.eqb (fst c) endPoint then rest
      else c :: erase_first endPoint rest
  end.

Definition DeAllocate (d : Ipv6EndPointDemux) (endPoint : EndPointPtr)
  : Ipv6EndPointDemux :=
  with_endPoints d (erase_first endPoint (m_endPoints d)).

(** *** Lookup *)

(** The four lists [retval1] .. [retval4]. *)
Record Buckets := mkBuckets {
  retval1 : EndPoints;
  retval2 : EndPoints;
  retval3 : EndPoints;
  retval4 : EndPoints
}.

Definition no_buckets : Buckets := mkBuckets [] [] [] [].

Definition push_if (b : bool) (l : EndPoints) (c : Cell) : EndPoints :=
  if b then l ++ [c] else l.

(** The body of the [for] loop of [Lookup] on one endpoint; each
    [continue] leaves the four lists as they are. *)
Definition Lookup_body (daddr : Ipv6Address) (dport : Z)
    (saddr : Ipv6Address) (sport : Z)
    (incomingInterface : option Ipv6Interface)
    (r : Buckets) (c : Cell) : Buckets :=
  let endP := snd c in
  if negb (IsRxEnabled endP) then r
  else if negb (GetLocalPort endP =? dport) then r
  else if is_bound (GetBoundNetDevice endP)
          && match incomingInterface with
             | None => true
             | Some itf =>
                 negb (dev_eqb (GetBoundNetDevice endP) (GetDevice itf))
             end
  then r
  else
    let localAddressMatchesWildCard :=
      Ipv6Addr.eqb (GetLocalAddress endP) Ipv6Addr.GetAny in
    let localAddressMatchesExact :=
      Ipv6Addr.eqb (GetLocalAddress endP) daddr in
    let localAddressMatchesAllRouters :=
      Ipv6Addr.eqb (GetLocalAddress endP) Ipv6Addr.GetAllRoutersMulticast in
    if negb (localAddressMatchesExact || localAddressMatchesWildCard) then r
    else
      let remotePeerMatchesExact := GetPeerPort endP =? sport in
      let remotePeerMatchesWildCard := GetPeerPort endP =? 0 in
      let remoteAddressMatchesExact :=
        Ipv6Addr.eqb (GetPeerAddress endP) saddr in
      let remoteAddressMatchesWildCard :=
        Ipv6Addr.eqb (GetPeerAddress endP) Ipv6Addr.GetAny in
      if negb (remotePeerMatchesExact || remotePeerMatchesWildCard) then r
      else if negb (remoteAddressMatchesExact || remoteAddressMatchesWildCard)
      then r
      else
        {| retval1 :=
             push_if (localAddressMatchesWildCard && remotePeerMatchesWildCard
                      && remoteAddressMatchesWildCard) (retval1 r) c;
           retval2 :=
             push_if ((localAddressMatchesExact
                       || localAddressMatchesAllRouters)
                      && remotePeerMatchesWildCard
                      && remoteAddressMatchesWildCard) (retval2 r) c;
           retval3 :=
             push_if (localAddressMatchesWildCard && remotePeerMatchesExact
                      && remoteAddressMatchesExact) (retval3 r) c;
           retval4 :=
             push_if (localAddressMatchesExact && remotePeerMatchesExact
                      && remoteAddressMatchesExact) (retval4 r) c |}.

Definition is_empty (l : EndPoints) : bool :=
  match l with [] => true | _ => false end.

(** "Here we find the most exact match". *)
Definition most_exact (r : Buckets) : EndPoints :=
  if negb (is_empty (retval4 r)) then retval4 r
  else if negb (is_empty (retval3 r)) then retval3 r
  else if negb (is_empty (retval2 r)) then retval2 r
  else retval1 r.

(** What a call of [Lookup] comes to: the process is aborted, or a list
    is returned. *)
Inductive LookupResult :=
| Aborted
| Returned (retval : EndPoints).

(** Modelled from the spec: [NS_ABORT_MSG_IF (cond, msg)] (ns3/abort.h is
    not part of the sources at hand) halts the process when [cond] holds
    and does nothing otherwise. *)
Definition NS_ABORT_MSG_IF (cond : bool) (k : LookupResult) : LookupResult :=
  if cond then Aborted else k.

Definition Lookup (eps : EndPoints) (daddr : Ipv6Address) (dport : Z)
    (saddr : Ipv6Address) (sport : Z)
    (incomingInterface : option Ipv6Interface) : LookupResult :=
  let r :=
    fold_left (Lookup_body daddr dport saddr sport incomingInterface)
      eps no_buckets in
  let retval := most_exact r in
  NS_ABORT_MSG_IF (1 <? Z.of_nat (length retval)) (Returned retval).

(** *** SimpleLookup *)

(** The [for] loop of [SimpleLookup], with the two locals [genericity]
    and [generic] it updates; a [return] inside the loop ends it. *)
Fixpoint SimpleLookup_loop (eps : EndPoints) (dst : Ipv6Address) (dport : Z)
    (src : Ipv6Address) (sport : Z) (genericity : Z) (generic : option Cell)
  : option Cell :=
  match eps with
  | [] => generic
  | i :: rest =>
      if negb (GetLocalPort (snd i) =? dport)
      then SimpleLookup_loop rest dst dport src sport genericity generic
      else if Ipv6Addr.eqb (GetLocalAddress (snd i)) dst
              && (GetPeerPort (snd i) =? sport)
              && Ipv6Addr.eqb (GetPeerAddress (snd i)) src
      then Some i
      else
        let tmp := 0 in
        let tmp :=
          if Ipv6Addr.eqb (GetLocalAddress (snd i)) Ipv6Addr.GetAny
          then tmp + 1 else tmp in
        let tmp :=
          if Ipv6Addr.eqb (GetPeerAddress (snd i)) Ipv6Addr.GetAny
          then tmp + 1 else tmp in
        if tmp <? genericity
        then SimpleLookup_loop rest dst dport src sport tmp (Some i)
        else SimpleLookup_loop rest dst dport src sport genericity generic
  end.

Definition SimpleLookup (eps : EndPoints) (dst : Ipv6Address) (dport : Z)
    (src : Ipv6Address) (sport : Z) : option Cell :=
  SimpleLookup_loop eps dst dport src sport 3 None.

(** ** The best-match lookup as the four buckets are described

    The description of [Lookup] in words: which endpoints are skipped,
    which survive, and the bucket or buckets a survivor is put into.
    The loop above is compared with it below. *)

Section LookupSpec.
Variables (daddr : Ipv6Address) (dport : Z).
Variables (saddr : Ipv6Address) (sport : Z).
Variable incomingInterface : option Ipv6Interface.

(** The bound device, if any, is the device of the incoming interface. *)
Definition spec_device_ok (e : Ipv6EndPoint) : bool :=
  match GetBoundNetDevice e, incomingInterface with
  | None, _ => true
  | Some _, None => false
  | Some dev, Some itf => dev_eqb (Some dev) (GetDevice itf)
  end.

Definition spec_local_exact (e : Ipv6EndPoint) : bool :=
  GetLocalAddress e =? daddr.
Definition spec_local_wildcard (e : Ipv6EndPoint) : bool :=
  GetLocalAddress e =? Ipv6Addr.GetAny.
Definition spec_local_all_routers (e : Ipv6EndPoint) : bool :=
  GetLocalAddress e =? Ipv6Addr.GetAllRoutersMulticast.
Definition spec_peer_port_exact (e : Ipv6EndPoint) : bool :=
  GetPeerPort e =? sport.
Definition spec_peer_port_wildcard (e : Ipv6EndPoint) : bool :=
  GetPeerPort e =? 0.
Definition spec_peer_addr_exact (e : Ipv6EndPoint) : bool :=
  GetPeerAddress e =? saddr.
Definition spec_peer_addr_wildcard (e : Ipv6EndPoint) : bool :=
  GetPeerAddress e =? Ipv6Addr.GetAny.

(** An endpoint survives when it is not skipped. *)
Definition spec_survives (e : Ipv6EndPoint) : bool :=
  IsRxEnabled e
  && (GetLocalPort e =? dport)
  && spec_device_ok e
  && (spec_local_exact e || spec_local_wildcard e)
  && (spec_peer_port_exact e || spec_peer_port_wildcard e)
  && (spec_peer_addr_exact e || spec_peer_addr_wildcard e).

(** The condition of bucket [n] (1 to 4) on a surviving endpoint. *)
Definition spec_bucket_cond (n : nat) (e : Ipv6EndPoint) : bool :=
  match n with
  | 1%nat => spec_local_wildcard e && spec_peer_port_wildcard e
             && spec_peer_addr_wildcard e
  | 2%nat => (spec_local_exact e || spec_local_all_routers e)
             && spec_peer_port_wildcard e && spec_peer_addr_wildcard e
  | 3%nat => spec_local_wildcard e && spec_peer_port_exact e
             && spec_peer_addr_exact e
  | 4%nat => spec_local_exact e && spec_peer_port_exact e
             && spec_peer_addr_exact e
  | _ => false
  end.

(** Bucket [n]: the surviving endpoints that meet its condition, in the
    order of the collection. *)
Definition spec_bucket (n : nat) (eps : EndPoints) : EndPoints :=
  filter (fun c => spec_survives (snd c) && spec_bucket_cond n (snd c)) eps.

(** The highest-numbered bucket that is not empty; the empty list when
    all four are. *)
Definition spec_highest (eps : EndPoints) : EndPoints :=
  match spec_bucket 4 eps, spec_bucket 3 eps, spec_bucket 2 eps with
  | _ :: _, _, _ => spec_bucket 4 eps
  | [], _ :: _, _ => spec_bucket 3 eps
  | [], [], _ :: _ => spec_bucket 2 eps
  | [], [], [] => spec_bucket 1 eps
  end.

End LookupSpec.

(** The receive flag of every endpoint of a collection set to [enabled],
    as a socket does through the pointers it holds. *)
Definition set_rx (enabled : bool) (c : Cell) : Cell :=
  (fst c, SetRxEnabled (snd c) enabled).

(** ** The single-result lookup as it is described *)

(** The endpoint holds the local port asked for. *)
Definition port_match (dport : Z) (c : Cell) : bool :=
  GetLocalPort (snd c) =? dport.

(** An exact hit: local port, local address, peer port and peer address
    are those of the query. *)
Definition exact_hit (dst : Ipv6Address) (dport : Z) (src : Ipv6Address)
    (sport : Z) (c : Cell) : bool :=
  port_match dport c
  && (GetLocalAddress (snd c) =? dst)
  && (GetPeerPort (snd c) =? sport)
  && (GetPeerAddress (snd c) =? src).

(** The number of wildcards among the local and the peer address. *)
Definition wildcard_count (c : Cell) : Z :=
  (if GetLocalAddress (snd c) =? Ipv6Addr.GetAny then 1 else 0)
  + (if GetPeerAddress (snd c) =? Ipv6Addr.GetAny then 1 else 0).

(** ** Sequences of allocation calls *)

(** A call of one of the five forms of [Allocate], with its arguments. *)
Inductive call :=
| Call_Allocate
| Call_Allocate_addr (address : Ipv6Address)
| Call_Allocate_dev_port (boundNetDevice : NetDevicePtr) (port : Z)
| Call_Allocate_dev_addr_port (boundNetDevice : NetDevicePtr)
    (address : Ipv6Address) (port : Z)
| Call_Allocate_full (boundNetDevice : NetDevicePtr)
    (localAddress : Ipv6Address) (localPort : Z)
    (peerAddress : Ipv6Address) (peerPort : Z).

Definition do_call (d : Ipv6EndPointDemux) (c : call)
  : option Cell * Ipv6EndPointDemux :=
  match c with
  | Call_Allocate => Allocate d
  | Call_Allocate_addr address => Allocate_addr d address
  | Call_Allocate_dev_port dev port => Allocate_dev_port d dev port
  | Call_Allocate_dev_addr_port dev address port =>
      Allocate_dev_addr_port d dev address port
  | Call_Allocate_full dev la lp pa pp => Allocate_full d dev la lp pa pp
  end.

(** The calls made one after the other: what each returned, and the
    demultiplexer after the last. *)
Fixpoint run (d : Ipv6EndPointDemux) (calls : list call)
  : list (option Cell) * Ipv6EndPointDemux :=
  match calls with
  | [] => ([], d)
  | c :: rest =>
      let '(r, d) := do_call d c in
      let '(rs, d) := run d rest in
      (r :: rs, d)
  end.

(** The local port a call asks for, when it names one. *)
Definition requested_port (c : call) : option Z :=
  match c with
  | Call_Allocate | Call_Allocate_addr _ => None
  | Call_Allocate_dev_port _ port
  | Call_Allocate_dev_addr_port _ _ port
  | Call_Allocate_full _ _ port _ _ => Some port
  end.

Definition local_port (c : Cell) : Z := GetLocalPort (snd c).

(** No endpoint of the collection has local port 0. *)
Definition no_port_zero (eps : EndPoints) : Prop :=
  forall c, In c eps -> local_port c <> 0.

(** The statement that local port 0 never comes out of any sequence of
    allocation calls on a new demultiplexer. *)
Definition never_port_zero : Prop :=
  forall calls : list call,
    (forall c, In (Some c) (fst (run Ipv6EndPointDemux_new calls)) ->
               local_port c <> 0)
    /\ no_port_zero (m_endPoints (snd (run Ipv6EndPointDemux_new calls))).

(** The statement that a new demultiplexer with the range [first..last]
    of [N] ports serves [N] calls of [Allocate ()] with [N] distinct ports
    and fails the next. *)
Definition exhausts_after_range (first last : Z) : Prop :=
  let N := Z.to_nat (last - first + 1) in
  exists cells : list Cell,
    length cells = N
    /\ NoDup (map local_port cells)
    /\ fst (run (fresh first last) (repeat Call_Allocate (S N))) =
       map Some cells ++ [None].

(** The [i]-th port handed out, counting from 1, by a new demultiplexer
    with the range [first..last]. *)
Definition nth_port (first last : Z) (i : nat) : Z :=
  first + Z.of_nat i mod (last - first + 1).

(** An existing endpoint that stands in the way of a new binding of
    [(address, port)] on [boundNetDevice]: same local port, same local
    address, and bound to that device or to none. *)
Definition local_conflict (boundNetDevice : NetDevicePtr)
    (address : Ipv6Address) (port : Z) (c : Cell) : Prop :=
  GetLocalPort (snd c) = port
  /\ GetLocalAddress (snd c) = address
  /\ (GetBoundNetDevice (snd c) = boundNetDevice
      \/ GetBoundNetDevice (snd c) = None).

(** The statement that a new binding on no device is refused when an
    endpoint bound to some device holds the same address and port. *)
Definition any_device_refused_by_bound : Prop :=
  forall (d : Ipv6EndPointDemux) (address : Ipv6Address) (port : Z),
    (exists c dev, In c (m_endPoints d)
                   /\ GetLocalPort (snd c) = port
                   /\ GetLocalAddress (snd c) = address
                   /\ GetBoundNetDevice (snd c) = Some dev) ->
    fst (Allocate_dev_addr_port d None address port) = None.

(** The state of a demultiplexer with the range [first..last] that has
    served [k] calls of [Allocate ()] since it was new: the cursor is on
    the [k]-th port and the endpoints hold the first [k] ports. *)
Definition served (first last : Z) (k : nat) (d : Ipv6EndPointDemux) : Prop :=
  m_portFirst d = first
  /\ m_portLast d = last
  /\ m_ephemeral d = nth_port first last k
  /\ map local_port (m_endPoints d) = map (nth_port first last) (seq 1 k).

(** ** Calls that allocate or deallocate *)

(** One call on the demultiplexer that changes it: an allocation in one
    of its forms, or [DeAllocate (endPoint)]. *)
Inductive op :=
| Op_call (c : call)
| Op_DeAllocate (endPoint : EndPointPtr).

Definition do_op (d : Ipv6EndPointDemux) (o : op) : Ipv6EndPointDemux :=
  match o with
  | Op_call c => snd (do_call d c)
  | Op_DeAllocate endPoint => DeAllocate d endPoint
  end.

Definition run_ops (d : Ipv6EndPointDemux) (ops : list op)
  : Ipv6EndPointDemux :=
  fold_left do_op ops d.

(** The call takes its port from the ephemeral range, or deallocates. *)
Definition ephemeral_op (o : op) : Prop :=
  match o with
  | Op_call c => requested_port c = None
  | Op_DeAllocate _ => True
  end.

(** The four fields the lookups compare: local address, local port, peer
    address, peer port. *)
Definition tuple (c : Cell) : Z * Z * Z * Z :=
  (GetLocalAddress (snd c), GetLocalPort (snd c),
   GetPeerAddress (snd c), GetPeerPort (snd c)).

(** Every port of the ephemeral range is the local port of an endpoint. *)
Definition range_held (d : Ipv6EndPointDemux) : Prop :=
  forall p, m_portFirst d <= p <= m_portLast d ->
            LookupPortLocal (m_endPoints d) p = true.

(** An existing endpoint that stands in the way of a new connected
    endpoint: same four fields, and bound to that device or to none. *)
Definition full_conflict (boundNetDevice : NetDevicePtr)
    (localAddress : Ipv6Address) (localPort : Z)
    (peerAddress : Ipv6Address) (peerPort : Z) (c : Cell) : Prop :=
  tuple c = (localAddress, localPort, peerAddress, peerPort)
  /\ (GetBoundNetDevice (snd c) = boundNetDevice
      \/ GetBoundNetDevice (snd c) = None).

(** The endpoint qualifies for an arrival: it receives, holds the
    destination port, is bound to no device or to the device of the
    incoming interface, has the destination or the wildcard as local
    address, and a peer that is wholly the wildcard or wholly the
    source. *)
Definition qualifies (daddr : Ipv6Address) (dport : Z)
    (saddr : Ipv6Address) (sport : Z)
    (incomingInterface : option Ipv6Interface) (c : Cell) : Prop :=
  IsRxEnabled (snd c) = true
  /\ GetLocalPort (snd c) = dport
  /\ (GetBoundNetDevice (snd c) = None
      \/ exists itf, incomingInterface = Some itf
                     /\ GetDevice itf = GetBoundNetDevice (snd c))
  /\ (GetLocalAddress (snd c) = daddr
      \/ GetLocalAddress (snd c) = Ipv6Addr.GetAny)
  /\ ((GetPeerPort (snd c) = 0
       /\ GetPeerAddress (snd c) = Ipv6Addr.GetAny)
      \/ (GetPeerPort (snd c) = sport /\ GetPeerAddress (snd c) = saddr)).

(** No endpoint of the collection is bound to a device. *)
Definition all_unbound (eps : EndPoints) : Prop :=
  forall c, In c eps -> GetBoundNetDevice (snd c) = None.

(** The four fields every endpoint of bucket [n] has, for an arrival at
    [daddr]:[dport] from [saddr]:[sport]. *)
Definition bucket_tuple (daddr : Ipv6Address) (dport : Z)
    (saddr : Ipv6Address) (sport : Z) (n : nat) : Z * Z * Z * Z :=
  match n with
  | 1%nat => (Ipv6Addr.GetAny, dport, Ipv6Addr.GetAny, 0)
  | 2%nat => (daddr, dport, Ipv6Addr.GetAny, 0)
  | 3%nat => (Ipv6Addr.GetAny, dport, saddr, sport)
  | _ => (daddr, dport, saddr, sport)
  end.

(** * Properties *)

(** ** The loop of [Lookup] computes the four buckets *)

Section LookupProofs.
Variables (daddr : Ipv6Address) (dport : Z).
Variables (saddr : Ipv6Address) (sport : Z).
Variable incomingInterface : option Ipv6Interface.

Local Abbreviation spec_survives :=
  (spec_survives daddr dport saddr sport incomingInterface).
Local Abbreviation spec_bucket_cond := (spec_bucket_cond daddr saddr sport).
Local Abbreviation spec_bucket :=
  (spec_bucket daddr dport saddr sport incomingInterface).
Local Abbreviation spec_highest :=
  (spec_highest daddr dport saddr sport incomingInterface).

Lemma Lookup_body_spec (r : Buckets) (c : Cell) :
  Lookup_body daddr dport saddr sport incomingInterface r c =
  {| retval1 :=
       push_if (spec_survives (snd c) && spec_bucket_cond 1 (snd c))
         (retval1 r) c;
     retval2 :=
       push_if (spec_survives (snd c) && spec_bucket_cond 2 (snd c))
         (retval2 r) c;
     retval3 :=
       push_if (spec_survives (snd c) && spec_bucket_cond 3 (snd c))
         (retval3 r) c;
     retval4 :=
       push_if (spec_survives (snd c) && spec_bucket_cond 4 (snd c))
         (retval4 r) c |}.
Proof.
  destruct r as [r1 r2 r3 r4], c as [p e].
  unfold Lookup_body, spec_survives, spec_bucket_cond, spec_device_ok,
    spec_local_exact, spec_local_wildcard, spec_local_all_routers,
    spec_peer_port_exact, spec_peer_port_wildcard, spec_peer_addr_exact,
    spec_peer_addr_wildcard, Ipv6Addr.eqb, is_bound;
    cbn [snd retval1 retval2 retval3 retval4].
  destruct (IsRxEnabled e); cbn [negb andb]; [|reflexivity].
  destruct (GetLocalPort e =? dport); cbn [negb andb]; [|reflexivity].
  destruct (GetBoundNetDevice e) as [dev|], incomingInterface as [itf|];
    cbn [negb andb]; try reflexivity.
  - destruct (dev_eqb (Some dev) (GetDevice itf)); cbn [negb andb];
      [|reflexivity].
    destruct (GetLocalAddress e =? daddr),
      (GetLocalAddress e =? Ipv6Addr.GetAny),
      (GetLocalAddress e =? Ipv6Addr.GetAllRoutersMulticast),
      (GetPeerPort e =? sport), (GetPeerPort e =? 0),
      (GetPeerAddress e =? saddr), (GetPeerAddress e =? Ipv6Addr.GetAny);
      reflexivity.
  - destruct (GetLocalAddress e =? daddr),
      (GetLocalAddress e =? Ipv6Addr.GetAny),
      (GetLocalAddress e =? Ipv6Addr.GetAllRoutersMulticast),
      (GetPeerPort e =? sport), (GetPeerPort e =? 0),
      (GetPeerAddress e =? saddr), (GetPeerAddress e =? Ipv6Addr.GetAny);
      reflexivity.
  - destruct (GetLocalAddress e =? daddr),
      (GetLocalAddress e =? Ipv6Addr.GetAny),
      (GetLocalAddress e =? Ipv6Addr.GetAllRoutersMulticast),
      (GetPeerPort e =? sport), (GetPeerPort e =? 0),
      (GetPeerAddress e =? saddr), (GetPeerAddress e =? Ipv6Addr.GetAny);
      reflexivity.
Qed.

Lemma push_if_filter (f : Cell -> bool) (l : EndPoints) (c : Cell)
    (rest : EndPoints) :
  push_if (f c) l c ++ filter f rest = l ++ filter f (c :: rest).
Proof.
  unfold push_if; cbn [filter]; destruct (f c).
  - now rewrite <- app_assoc.
  - reflexivity.
Qed.

Lemma Lookup_fold_spec (eps : EndPoints) (r : Buckets) :
  fold_left (Lookup_body daddr dport saddr sport incomingInterface) eps r =
  {| retval1 := retval1 r ++ spec_bucket 1 eps;
     retval2 := retval2 r ++ spec_bucket 2 eps;
     retval3 := retval3 r ++ spec_bucket 3 eps;
     retval4 := retval4 r ++ spec_bucket 4 eps |}.
Proof.
  revert r; induction eps as [|c eps IH]; intros r.
  - destruct r; cbn; now rewrite !app_nil_r.
  - cbn [fold_left]. rewrite IH, Lookup_body_spec.
    cbn [retval1 retval2 retval3 retval4]. unfold spec_bucket.
    now rewrite <- 4 push_if_filter.
Qed.

Lemma most_exact_spec (eps : EndPoints) :
  most_exact
    (fold_left (Lookup_body daddr dport saddr sport incomingInterface)
       eps no_buckets) = spec_highest eps.
Proof.
  rewrite Lookup_fold_spec. unfold most_exact, spec_highest, no_buckets.
  cbn [retval1 retval2 retval3 retval4 app].
  destruct (spec_bucket 4 eps), (spec_bucket 3 eps), (spec_bucket 2 eps);
    reflexivity.
Qed.

Lemma Lookup_spec (eps : EndPoints) :
  Lookup eps daddr dport saddr sport incomingInterface =
  if 1 <? Z.of_nat (length (spec_highest eps)) then Aborted
  else Returned (spec_highest eps).
Proof. unfold Lookup, NS_ABORT_MSG_IF. now rewrite most_exact_spec. Qed.

(** Whatever is in the chosen bucket is a surviving endpoint of the
    collection. *)
Lemma spec_highest_In (eps : EndPoints) (c : Cell) :
  In c (spec_highest eps) -> In c eps /\ spec_survives (snd c) = true.
Proof.
  assert (Hb : forall n, In c (spec_bucket n eps) ->
                         In c eps /\ spec_survives (snd c) = true).
  { intros n Hin. apply filter_In in Hin. destruct Hin as [Hin Hc].
    apply andb_true_iff in Hc. tauto. }
  unfold spec_highest.
  destruct (spec_bucket 4 eps) eqn:E4; [|rewrite <- E4; apply Hb].
  destruct (spec_bucket 3 eps) eqn:E3; [|rewrite <- E3; apply Hb].
  destruct (spec_bucket 2 eps) eqn:E2; [|rewrite <- E2; apply Hb].
  apply Hb.
Qed.

Lemma Lookup_Returned_In (eps retval : EndPoints) (c : Cell) :
  Lookup eps daddr dport saddr sport incomingInterface = Returned retval ->
  In c retval -> In c eps /\ spec_survives (snd c) = true.
Proof.
  rewrite Lookup_spec.
  destruct (1 <? Z.of_nat (length (spec_highest eps))); [discriminate|].
  intros [= <-]. apply spec_highest_In.
Qed.
End LookupProofs.

(** ** Best-match lookup *)

(** C1: the loop of [Lookup] fills the four lists with exactly the
    surviving endpoints that meet the condition of bucket 1, 2, 3 and 4,
    and [Lookup] hands back the highest-numbered bucket that is not empty
    (after the abort check on its size).  In particular, with endpoints
    bound to (any, P), (A, P), (any, P, peer B:Q) and (A, P, peer B:Q),
    where A is not the wildcard address and B:Q is not the wildcard peer,
    an arrival for dst A, dport P, src B, sport Q returns exactly the last
    of them. *)
Theorem Lookup_most_specific_bucket
    (eps : EndPoints) (daddr : Ipv6Address) (dport : Z)
    (saddr : Ipv6Address) (sport : Z) (itf : option Ipv6Interface)
    (A : Ipv6Address) (P : Z) (B : Ipv6Address) (Q : Z)
    (p1 p2 p3 p4 : EndPointPtr) (itf' : option Ipv6Interface) :
  A <> Ipv6Addr.GetAny ->
  B <> Ipv6Addr.GetAny \/ Q <> 0 ->
  fold_left (Lookup_body daddr dport saddr sport itf) eps no_buckets =
    {| retval1 := spec_bucket daddr dport saddr sport itf 1 eps;
       retval2 := spec_bucket daddr dport saddr sport itf 2 eps;
       retval3 := spec_bucket daddr dport saddr sport itf 3 eps;
       retval4 := spec_bucket daddr dport saddr sport itf 4 eps |}
  /\ Lookup eps daddr dport saddr sport itf =
       (if 1 <? Z.of_nat
                  (length (spec_highest daddr dport saddr sport itf eps))
        then Aborted
        else Returned (spec_highest daddr dport saddr sport itf eps))
  /\ Lookup
       [ (p1, Ipv6EndPoint_new Ipv6Addr.GetAny P);
         (p2, Ipv6EndPoint_new A P);
         (p3, SetPeer (Ipv6EndPoint_new Ipv6Addr.GetAny P) B Q);
         (p4, SetPeer (Ipv6EndPoint_new A P) B Q) ]
       A P B Q itf' =
     Returned [ (p4, SetPeer (Ipv6EndPoint_new A P) B Q) ].
Proof.
  intros HA HBQ. split; [|split].
  - now rewrite Lookup_fold_spec.
  - apply Lookup_spec.
  - rewrite Lookup_spec.
    unfold spec_highest, spec_bucket, spec_survives, spec_bucket_cond,
      spec_device_ok, spec_local_exact, spec_local_wildcard,
      spec_local_all_routers, spec_peer_port_exact, spec_peer_port_wildcard,
      spec_peer_addr_exact, spec_peer_addr_wildcard, Ipv6Addr.GetAny in *.
    cbn [filter snd Ipv6EndPoint_new SetPeer GetLocalAddress GetLocalPort
           GetPeerAddress GetPeerPort GetBoundNetDevice IsRxEnabled andb].
    unfold Ipv6Addr.GetAny. rewrite !Z.eqb_refl.
    destruct (Z.eqb_spec A 0) as [?|_]; [contradiction|].
    destruct (Z.eqb_spec 0 A) as [?|_]; [congruence|].
    destruct (Z.eqb_spec 0 B), (Z.eqb_spec 0 Q), (Z.eqb_spec B 0),
      (Z.eqb_spec Q 0); try lia; reflexivity.
Qed.

Lemma Lookup_most_specific_bucket_witness :
  Lookup
    [ (1%nat, Ipv6EndPoint_new Ipv6Addr.GetAny 80);
      (2%nat, Ipv6EndPoint_new 10 80);
      (3%nat, SetPeer (Ipv6EndPoint_new Ipv6Addr.GetAny 80) 20 1234);
      (4%nat, SetPeer (Ipv6EndPoint_new 10 80) 20 1234) ]
    10 80 20 1234 None =
  Returned [ (4%nat, SetPeer (Ipv6EndPoint_new 10 80) 20 1234) ].
Proof.
  refine (proj2 (proj2 (Lookup_most_specific_bucket
                          [] 0 0 0 0 None 10 80 20 1234
                          1%nat 2%nat 3%nat 4%nat None _ _))).
  - unfold Ipv6Addr.GetAny; lia.
  - left; unfold Ipv6Addr.GetAny; lia.
Defined.

(** C2: [Lookup] never returns more than one endpoint.  A returned list
    is the most specific non-empty bucket and has zero or one element; when
    that bucket has two or more, the call aborts, as it does with two
    receiving endpoints both bound to (any, 80). *)
Theorem Lookup_at_most_one
    (eps : EndPoints) (daddr : Ipv6Address) (dport : Z)
    (saddr : Ipv6Address) (sport : Z) (itf : option Ipv6Interface) :
  match Lookup eps daddr dport saddr sport itf with
  | Returned retval =>
      retval = spec_highest daddr dport saddr sport itf eps
      /\ (length retval <= 1)%nat
  | Aborted =>
      (1 < length (spec_highest daddr dport saddr sport itf eps))%nat
  end
  /\ Lookup [ (1%nat, Ipv6EndPoint_new Ipv6Addr.GetAny 80);
              (2%nat, Ipv6EndPoint_new Ipv6Addr.GetAny 80) ]
       10 80 20 1234 None = Aborted.
Proof.
  split; [|reflexivity].
  rewrite Lookup_spec.
  destruct (Z.ltb_spec 1
              (Z.of_nat
                 (length (spec_highest daddr dport saddr sport itf eps))));
    [|split; [reflexivity|]]; lia.
Qed.

Lemma dev_eqb_eq (a b : NetDevicePtr) : dev_eqb a b = true <-> a = b.
Proof.
  destruct a as [x|], b as [y|]; cbn; try (split; congruence).
  rewrite Nat.eqb_eq. split; congruence.
Qed.

(** C6: an endpoint with a bound device is in the result of [Lookup] only
    when an incoming interface is supplied and its device is the bound
    one. *)
Theorem Lookup_device_scoping
    (eps : EndPoints) (daddr : Ipv6Address) (dport : Z)
    (saddr : Ipv6Address) (sport : Z) (itf : option Ipv6Interface)
    (retval : EndPoints) (p : EndPointPtr) (e : Ipv6EndPoint) (dev : nat) :
  Lookup eps daddr dport saddr sport itf = Returned retval ->
  In (p, e) retval ->
  GetBoundNetDevice e = Some dev ->
  exists i, itf = Some i /\ GetDevice i = Some dev.
Proof.
  intros HL Hin Hdev.
  destruct (Lookup_Returned_In _ _ _ _ _ _ _ _ HL Hin) as [_ Hs].
  unfold spec_survives in Hs. cbn [snd] in Hs.
  rewrite !andb_true_iff in Hs.
  destruct Hs as [[[[[_ _] Hd] _] _] _].
  unfold spec_device_ok in Hd. rewrite Hdev in Hd.
  destruct itf as [i|]; [|discriminate].
  exists i. split; [reflexivity|].
  apply dev_eqb_eq in Hd. now symmetry.
Qed.

Lemma Lookup_device_scoping_witness :
  exists i, Some (mkInterface (Some 7%nat)) = Some i
            /\ GetDevice i = Some 7%nat.
Proof.
  apply (Lookup_device_scoping
           [ (1%nat,
              BindToNetDevice (Ipv6EndPoint_new 10 80) (Some 7%nat)) ]
           10 80 20 1234 (Some (mkInterface (Some 7%nat)))
           [ (1%nat,
              BindToNetDevice (Ipv6EndPoint_new 10 80) (Some 7%nat)) ]
           1%nat (BindToNetDevice (Ipv6EndPoint_new 10 80) (Some 7%nat))
           7%nat).
  - reflexivity.
  - left; reflexivity.
  - reflexivity.
Defined.

(** ** The receive flag *)

Lemma SimpleLookup_loop_set_rx (enabled : bool) (eps : EndPoints)
    (dst : Ipv6Address) (dport : Z) (src : Ipv6Address) (sport : Z)
    (genericity : Z) (generic : option Cell) :
  SimpleLookup_loop (map (set_rx enabled) eps) dst dport src sport genericity
    (option_map (set_rx enabled) generic) =
  option_map (set_rx enabled)
    (SimpleLookup_loop eps dst dport src sport genericity generic).
Proof.
  revert genericity generic.
  induction eps as [|i rest IH]; intros genericity generic; [reflexivity|].
  cbn [map SimpleLookup_loop set_rx snd SetRxEnabled GetLocalPort
         GetLocalAddress GetPeerPort GetPeerAddress].
  destruct (negb (GetLocalPort (snd i) =? dport)); [apply IH|].
  destruct (Ipv6Addr.eqb (GetLocalAddress (snd i)) dst
            && (GetPeerPort (snd i) =? sport)
            && Ipv6Addr.eqb (GetPeerAddress (snd i)) src); [reflexivity|].
  match goal with |- context [if ?b then _ else _] =>
    destruct b; [apply (IH _ (Some i)) | apply IH] end.
Qed.

(** C7, as the code has it: an endpoint whose receive flag is off is never
    in the result of the best-match [Lookup]; [SimpleLookup] does not read
    the flag, so that setting the flag of every endpoint to any value
    leaves its choice the same. *)
Theorem Lookup_skips_rx_disabled
    (eps : EndPoints) (daddr : Ipv6Address) (dport : Z)
    (saddr : Ipv6Address) (sport : Z) (itf : option Ipv6Interface) :
  (forall retval p e,
      Lookup eps daddr dport saddr sport itf = Returned retval ->
      In (p, e) retval -> IsRxEnabled e = true)
  /\ (forall enabled,
         SimpleLookup (map (set_rx enabled) eps) daddr dport saddr sport =
         option_map (set_rx enabled)
           (SimpleLookup eps daddr dport saddr sport)).
Proof.
  split.
  - intros retval p e HL Hin.
    destruct (Lookup_Returned_In _ _ _ _ _ _ _ _ HL Hin) as [_ Hs].
    unfold spec_survives in Hs. cbn [snd] in Hs.
    rewrite !andb_true_iff in Hs. tauto.
  - intros enabled. apply (SimpleLookup_loop_set_rx enabled eps _ _ _ _ 3 None).
Qed.

Lemma Lookup_skips_rx_disabled_witness :
  IsRxEnabled (Ipv6EndPoint_new 10 80) = true.
Proof.
  apply (proj1 (Lookup_skips_rx_disabled
                  [ (1%nat, Ipv6EndPoint_new 10 80) ] 10 80 20 1234 None)
           [ (1%nat, Ipv6EndPoint_new 10 80) ] 1%nat).
  - reflexivity.
  - left; reflexivity.
Defined.

(** C7 as stated fails for [SimpleLookup]: it returns an endpoint whose
    receive flag is off. *)
Lemma SimpleLookup_returns_rx_disabled :
  ~ (forall eps dst dport src sport c,
        SimpleLookup eps dst dport src sport = Some c ->
        IsRxEnabled (snd c) = true).
Proof.
  intros H.
  specialize (H [ (1%nat, SetRxEnabled (Ipv6EndPoint_new 10 80) false) ]
                10 80 20 1234
                (1%nat, SetRxEnabled (Ipv6EndPoint_new 10 80) false)
                eq_refl).
  discriminate H.
Qed.

(** ** Single-result lookup *)

Section SimpleLookupProofs.
Variables (dst : Ipv6Address) (dport : Z) (src : Ipv6Address) (sport : Z).

Local Abbreviation loop :=
  (fun eps => SimpleLookup_loop eps dst dport src sport).
Local Abbreviation exact := (exact_hit dst dport src sport).

Lemma wildcard_count_range (c : Cell) : 0 <= wildcard_count c <= 2.
Proof.
  unfold wildcard_count.
  destruct (GetLocalAddress (snd c) =? Ipv6Addr.GetAny),
    (GetPeerAddress (snd c) =? Ipv6Addr.GetAny); lia.
Qed.

(** One turn of the loop, in terms of the three notions above. *)
Lemma SimpleLookup_loop_cons (i : Cell) (rest : EndPoints) (genericity : Z)
    (generic : option Cell) :
  loop (i :: rest) genericity generic =
  if negb (port_match dport i) then loop rest genericity generic
  else if exact i then Some i
  else if wildcard_count i <? genericity
  then loop rest (wildcard_count i) (Some i)
  else loop rest genericity generic.
Proof.
  cbn [SimpleLookup_loop].
  unfold exact_hit, port_match, wildcard_count, Ipv6Addr.eqb.
  destruct (GetLocalPort (snd i) =? dport); cbn [negb andb]; [|reflexivity].
  destruct (GetLocalAddress (snd i) =? Ipv6Addr.GetAny),
    (GetPeerAddress (snd i) =? Ipv6Addr.GetAny); reflexivity.
Qed.

Lemma loop_no_port (eps : EndPoints) (genericity : Z)
    (generic : option Cell) :
  (forall x, In x eps -> port_match dport x = false) ->
  loop eps genericity generic = generic.
Proof.
  induction eps as [|i rest IH]; intros H; [reflexivity|].
  rewrite SimpleLookup_loop_cons, (H i (or_introl eq_refl)). cbn [negb].
  apply IH. intros x Hx. apply H. now right.
Qed.

Lemma exact_hit_port (c : Cell) : exact c = true -> port_match dport c = true.
Proof.
  unfold exact_hit. rewrite !andb_true_iff. tauto.
Qed.

Lemma loop_first_exact (l1 : EndPoints) (c : Cell) (l2 : EndPoints)
    (genericity : Z) (generic : option Cell) :
  exact c = true ->
  (forall x, In x l1 -> exact x = false) ->
  loop (l1 ++ c :: l2) genericity generic = Some c.
Proof.
  intros Hc. revert genericity generic.
  induction l1 as [|i l1 IH]; intros genericity generic H.
  - cbn [app]. rewrite SimpleLookup_loop_cons, (exact_hit_port c Hc), Hc.
    reflexivity.
  - cbn [app]. rewrite SimpleLookup_loop_cons, (H i (or_introl eq_refl)).
    assert (H' : forall x, In x l1 -> exact x = false)
      by (intros x Hx; apply H; now right).
    destruct (negb (port_match dport i)); [now apply IH|].
    destruct (wildcard_count i <? genericity); now apply IH.
Qed.

(** Past the chosen endpoint nothing strictly less generic remains, and
    the choice stays. *)
Lemma loop_keeps (eps : EndPoints) (genericity : Z) (generic : option Cell) :
  (forall x, In x eps -> exact x = false) ->
  (forall x, In x eps -> port_match dport x = true ->
             genericity <= wildcard_count x) ->
  loop eps genericity generic = generic.
Proof.
  induction eps as [|i rest IH]; intros Hex Hge; [reflexivity|].
  rewrite SimpleLookup_loop_cons, (Hex i (or_introl eq_refl)).
  assert (IH' : loop rest genericity generic = generic).
  { apply IH; intros x Hx; [apply Hex | apply Hge]; now right. }
  destruct (port_match dport i) eqn:Hp; cbn [negb]; [|exact IH'].
  specialize (Hge i (or_introl eq_refl) Hp).
  destruct (Z.ltb_spec (wildcard_count i) genericity); [lia|exact IH'].
Qed.

Lemma loop_first_least (l1 : EndPoints) (c : Cell) (l2 : EndPoints)
    (genericity : Z) (generic : option Cell) :
  (forall x, In x (l1 ++ c :: l2) -> exact x = false) ->
  port_match dport c = true ->
  wildcard_count c < genericity ->
  (forall x, In x l1 -> port_match dport x = true ->
             wildcard_count c < wildcard_count x) ->
  (forall x, In x l2 -> port_match dport x = true ->
             wildcard_count c <= wildcard_count x) ->
  loop (l1 ++ c :: l2) genericity generic = Some c.
Proof.
  intros Hex Hp. revert genericity generic Hex.
  induction l1 as [|i l1 IH]; intros genericity generic Hex Hlt H1 H2.
  - cbn [app] in *. rewrite SimpleLookup_loop_cons, Hp.
    rewrite (Hex c (or_introl eq_refl)). cbn [negb].
    destruct (Z.ltb_spec (wildcard_count c) genericity); [|lia].
    apply loop_keeps; [|exact H2].
    intros x Hx. apply Hex. now right.
  - cbn [app] in *. rewrite SimpleLookup_loop_cons.
    rewrite (Hex i (or_introl eq_refl)).
    assert (Hex' : forall x, In x (l1 ++ c :: l2) -> exact x = false)
      by (intros x Hx; apply Hex; now right).
    assert (H1' : forall x, In x l1 -> port_match dport x = true ->
                            wildcard_count c < wildcard_count x)
      by (intros x Hx; apply H1; now right).
    destruct (port_match dport i) eqn:Hpi; cbn [negb]; [|now apply IH].
    destruct (wildcard_count i <? genericity); [|now apply IH].
    apply IH; auto. apply H1; [now left|exact Hpi].
Qed.
End SimpleLookupProofs.

(** Two facts on scanning a list: the first element that passes a test,
    and the first element of least weight among those that pass it. *)
Lemma first_split {A : Type} (f : A -> bool) (l : list A) :
  (exists x, In x l /\ f x = true) ->
  exists l1 c l2,
    l = l1 ++ c :: l2 /\ f c = true /\ (forall x, In x l1 -> f x = false).
Proof.
  induction l as [|i rest IH]; intros [x [Hin Hx]]; [destruct Hin|].
  destruct (f i) eqn:Hi.
  - exists [], i, rest. repeat split; auto. intros y [].
  - destruct IH as (l1 & c & l2 & -> & Hc & Hl1).
    { destruct Hin as [->|Hin]; [congruence|eauto]. }
    exists (i :: l1), c, l2. repeat split; auto.
    intros y [<-|Hy]; auto.
Qed.

Lemma first_least_split {A : Type} (f : A -> bool) (w : A -> Z)
    (l : list A) :
  (exists x, In x l /\ f x = true) ->
  exists l1 c l2,
    l = l1 ++ c :: l2 /\ f c = true
    /\ (forall x, In x l1 -> f x = true -> w c < w x)
    /\ (forall x, In x l2 -> f x = true -> w c <= w x).
Proof.
  induction l as [|i rest IH]; intros [x [Hin Hx]]; [destruct Hin|].
  destruct (existsb f rest) eqn:Hrest.
  - apply existsb_exists in Hrest.
    destruct (IH Hrest) as (l1 & c & l2 & -> & Hc & H1 & H2).
    destruct (f i) eqn:Hi.
    + destruct (Z_le_gt_dec (w i) (w c)) as [Hle|Hgt].
      * exists [], i, (l1 ++ c :: l2). repeat split; auto; [intros y []|].
        intros y Hy Hfy. apply in_app_or in Hy.
        destruct Hy as [Hy|[<-|Hy]]; [specialize (H1 y Hy Hfy)| |
                                     specialize (H2 y Hy Hfy)]; lia.
      * exists (i :: l1), c, l2. repeat split; auto.
        intros y [<-|Hy] Hfy; [lia|auto].
    + exists (i :: l1), c, l2. repeat split; auto.
      intros y [<-|Hy] Hfy; [congruence|auto].
  - assert (Hnone : forall y, In y rest -> f y = false).
    { intros y Hy. destruct (f y) eqn:Hfy; [|reflexivity].
      assert (existsb f rest = true) by (apply existsb_exists; eauto).
      congruence. }
    destruct Hin as [->|Hin]; [|rewrite (Hnone x Hin) in Hx; discriminate].
    exists [], x, rest. repeat split; auto; [intros y []|].
    intros y Hy Hfy. rewrite (Hnone y Hy) in Hfy. discriminate.
Qed.

(** C8: when some endpoint is an exact hit, [SimpleLookup] returns the
    first such endpoint in scan order, whatever came before it; when there
    is none but some endpoint holds the port, it returns the one with the
    fewest wildcards among local and peer address, the earliest of those;
    and it returns none when no endpoint holds the port. *)
Theorem SimpleLookup_exact_then_least_generic
    (eps : EndPoints) (dst : Ipv6Address) (dport : Z)
    (src : Ipv6Address) (sport : Z) :
  ((exists x, In x eps /\ exact_hit dst dport src sport x = true) ->
   exists l1 c l2,
     eps = l1 ++ c :: l2
     /\ exact_hit dst dport src sport c = true
     /\ (forall x, In x l1 -> exact_hit dst dport src sport x = false)
     /\ SimpleLookup eps dst dport src sport = Some c)
  /\ ((forall x, In x eps -> exact_hit dst dport src sport x = false) ->
      (exists x, In x eps /\ port_match dport x = true) ->
      exists l1 c l2,
        eps = l1 ++ c :: l2
        /\ port_match dport c = true
        /\ (forall x, In x l1 -> port_match dport x = true ->
                      wildcard_count c < wildcard_count x)
        /\ (forall x, In x l2 -> port_match dport x = true ->
                      wildcard_count c <= wildcard_count x)
        /\ SimpleLookup eps dst dport src sport = Some c)
  /\ ((forall x, In x eps -> port_match dport x = false) ->
      SimpleLookup eps dst dport src sport = None).
Proof.
  unfold SimpleLookup. split; [|split].
  - intros Hex.
    destruct (first_split _ _ Hex) as (l1 & c & l2 & -> & Hc & Hl1).
    exists l1, c, l2. repeat split; auto. now apply loop_first_exact.
  - intros Hno Hp.
    destruct (first_least_split _ wildcard_count _ Hp)
      as (l1 & c & l2 & -> & Hc & H1 & H2).
    exists l1, c, l2. repeat split; auto.
    apply loop_first_least; auto.
    pose proof (wildcard_count_range c). lia.
  - intros H. now apply loop_no_port.
Qed.

(** The scan [(any, 80), (10, 80), (10, 80, peer 20:1234)] for an arrival
    at 10:80 from 20:1234 gives the third endpoint, the exact hit. *)
Lemma SimpleLookup_exact_then_least_generic_witness :
  exists l1 c l2,
    [ (1%nat, Ipv6EndPoint_new Ipv6Addr.GetAny 80);
      (2%nat, Ipv6EndPoint_new 10 80);
      (3%nat, SetPeer (Ipv6EndPoint_new 10 80) 20 1234) ] = l1 ++ c :: l2
    /\ exact_hit 10 80 20 1234 c = true
    /\ (forall x, In x l1 -> exact_hit 10 80 20 1234 x = false)
    /\ SimpleLookup
         [ (1%nat, Ipv6EndPoint_new Ipv6Addr.GetAny 80);
           (2%nat, Ipv6EndPoint_new 10 80);
           (3%nat, SetPeer (Ipv6EndPoint_new 10 80) 20 1234) ]
         10 80 20 1234 = Some c.
Proof.
  apply (proj1 (SimpleLookup_exact_then_least_generic _ 10 80 20 1234)).
  exists (3%nat, SetPeer (Ipv6EndPoint_new 10 80) 20 1234).
  split; [right; right; left; reflexivity | reflexivity].
Defined.

(** C10: [SimpleLookup] can return an endpoint that does not match the
    arrival.  For an arrival at 10:80 from 20:1234 and the endpoints
    (any, 80) and (30, 80, peer 40:5), it returns the second: its local
    address is neither the destination nor the wildcard and its peer is
    not the source, but it holds the port and counts no wildcard, while
    the first endpoint, the one the best-match [Lookup] returns, counts
    two. *)
Theorem SimpleLookup_returns_mismatch :
  exists eps dst dport src sport c w,
    SimpleLookup eps dst dport src sport = Some c
    /\ GetLocalPort (snd c) = dport
    /\ GetLocalAddress (snd c) <> dst
    /\ GetLocalAddress (snd c) <> Ipv6Addr.GetAny
    /\ GetPeerAddress (snd c) <> src
    /\ GetPeerPort (snd c) <> sport
    /\ GetPeerAddress (snd c) <> Ipv6Addr.GetAny
    /\ wildcard_count c = 0
    /\ In w eps
    /\ GetLocalAddress (snd w) = Ipv6Addr.GetAny
    /\ wildcard_count w = 2
    /\ Lookup eps dst dport src sport None = Returned [w].
Proof.
  exists [ (1%nat, Ipv6EndPoint_new Ipv6Addr.GetAny 80);
           (2%nat, SetPeer (Ipv6EndPoint_new 30 80) 40 5) ],
    10, 80, 20, 1234,
    (2%nat, SetPeer (Ipv6EndPoint_new 30 80) 40 5),
    (1%nat, Ipv6EndPoint_new Ipv6Addr.GetAny 80).
  cbn. repeat split; try discriminate; auto.
Qed.

(** ** Allocation on an explicit address and port *)

Lemma LookupLocal_true (eps : EndPoints) (dev : NetDevicePtr)
    (addr : Ipv6Address) (port : Z) :
  LookupLocal eps dev addr port = true <->
  exists c, In c eps
            /\ GetLocalPort (snd c) = port
            /\ GetLocalAddress (snd c) = addr
            /\ GetBoundNetDevice (snd c) = dev.
Proof.
  unfold LookupLocal, Ipv6Addr.eqb. rewrite existsb_exists.
  split; intros [c [Hin H]]; exists c; split; auto.
  - rewrite !andb_true_iff, !Z.eqb_eq, dev_eqb_eq in H. tauto.
  - rewrite !andb_true_iff, !Z.eqb_eq, dev_eqb_eq. tauto.
Qed.

Lemma Allocate_dev_addr_port_None (d : Ipv6EndPointDemux)
    (dev : NetDevicePtr) (addr : Ipv6Address) (port : Z) :
  fst (Allocate_dev_addr_port d dev addr port) = None <->
  exists c, In c (m_endPoints d) /\ local_conflict dev addr port c.
Proof.
  unfold Allocate_dev_addr_port, local_conflict.
  destruct (LookupLocal (m_endPoints d) dev addr port
            || LookupLocal (m_endPoints d) None addr port) eqn:E; cbn [fst].
  - split; [intros _|reflexivity].
    apply orb_true_iff in E.
    destruct E as [E|E]; apply LookupLocal_true in E;
      destruct E as (c & Hin & Hp & Ha & Hd); exists c; tauto.
  - split; [discriminate|]. intros (c & Hin & Hp & Ha & Hd).
    apply orb_false_iff in E. destruct E as [E1 E2].
    assert (LookupLocal (m_endPoints d) dev addr port = true
            \/ LookupLocal (m_endPoints d) None addr port = true) as [H|H].
    { destruct Hd as [Hd|Hd]; [left|right]; apply LookupLocal_true;
        exists c; tauto. }
    all: congruence.
Qed.

(** C3, as the code has it: the allocation on [(device, address, port)]
    returns null and inserts nothing exactly when an endpoint of the
    collection has that local address and local port and is bound to the
    caller's device or to no device; otherwise it appends the new
    endpoint.  So a binding on a device is refused when an endpoint bound
    to no device holds the address and port, whereas a binding on no
    device is not refused by endpoints that are all bound to a device. *)
Theorem Allocate_dev_addr_port_conflict
    (d : Ipv6EndPointDemux) (boundNetDevice : NetDevicePtr)
    (address : Ipv6Address) (port : Z) :
  (fst (Allocate_dev_addr_port d boundNetDevice address port) = None <->
   exists c, In c (m_endPoints d)
             /\ local_conflict boundNetDevice address port c)
  /\ (fst (Allocate_dev_addr_port d boundNetDevice address port) = None ->
      snd (Allocate_dev_addr_port d boundNetDevice address port) = d)
  /\ (forall c,
         fst (Allocate_dev_addr_port d boundNetDevice address port) = Some c ->
         c = (new_ptr (m_endPoints d), Ipv6EndPoint_new address port)
         /\ m_endPoints
              (snd (Allocate_dev_addr_port d boundNetDevice address port)) =
            m_endPoints d ++ [c])
  /\ ((exists c, In c (m_endPoints d)
                 /\ GetLocalPort (snd c) = port
                 /\ GetLocalAddress (snd c) = address
                 /\ GetBoundNetDevice (snd c) = None) ->
      fst (Allocate_dev_addr_port d boundNetDevice address port) = None)
  /\ ((forall c, In c (m_endPoints d) ->
                 GetLocalPort (snd c) = port ->
                 GetLocalAddress (snd c) = address ->
                 is_bound (GetBoundNetDevice (snd c)) = true) ->
      fst (Allocate_dev_addr_port d None address port) <> None).
Proof.
  split; [apply Allocate_dev_addr_port_None|].
  split; [|split; [|split]].
  - unfold Allocate_dev_addr_port.
    destruct (LookupLocal _ _ _ _ || LookupLocal _ _ _ _);
      [reflexivity|discriminate].
  - intros c. unfold Allocate_dev_addr_port.
    destruct (LookupLocal _ _ _ _ || LookupLocal _ _ _ _);
      [discriminate|].
    cbn [fst snd push_back with_endPoints m_endPoints].
    intros [= <-]. split; reflexivity.
  - intros (c & Hin & Hp & Ha & Hd). apply Allocate_dev_addr_port_None.
    exists c. unfold local_conflict. tauto.
  - intros Hb Hnone. apply Allocate_dev_addr_port_None in Hnone.
    destruct Hnone as (c & Hin & Hp & Ha & Hd).
    specialize (Hb c Hin Hp Ha).
    assert (GetBoundNetDevice (snd c) = None) as E by tauto.
    rewrite E in Hb. discriminate.
Qed.

(** With one endpoint at (10, 80) bound to no device, a binding of
    (10, 80) on device 7 is refused and the demultiplexer is as before. *)
Lemma Allocate_dev_addr_port_conflict_witness :
  snd (Allocate_dev_addr_port
         (with_endPoints Ipv6EndPointDemux_new
            [ (1%nat, Ipv6EndPoint_new 10 80) ]) (Some 7%nat) 10 80) =
  with_endPoints Ipv6EndPointDemux_new [ (1%nat, Ipv6EndPoint_new 10 80) ].
Proof.
  apply (proj1 (proj2 (Allocate_dev_addr_port_conflict
                         (with_endPoints Ipv6EndPointDemux_new
                            [ (1%nat, Ipv6EndPoint_new 10 80) ])
                         (Some 7%nat) 10 80))).
  reflexivity.
Defined.

(** C3 as stated fails in its last part: with an endpoint at (10, 80)
    bound to device 7, a new binding of (10, 80) on no device is
    accepted. *)
Lemma Allocate_any_device_beside_bound : ~ any_device_refused_by_bound.
Proof.
  intros H.
  specialize (H (with_endPoints Ipv6EndPointDemux_new
                   [ (1%nat,
                      BindToNetDevice (Ipv6EndPoint_new 10 80) (Some 7%nat)) ])
                10 80).
  cbn in H. discriminate H.
  exists (1%nat, BindToNetDevice (Ipv6EndPoint_new 10 80) (Some 7%nat)), 7%nat.
  cbn. auto.
Qed.

(** ** The ephemeral port scan *)

Lemma LookupPortLocal_In (eps : EndPoints) (port : Z) :
  LookupPortLocal eps port = true <-> In port (map local_port eps).
Proof.
  unfold LookupPortLocal. rewrite existsb_exists, in_map_iff.
  unfold local_port.
  split; intros [c [H1 H2]]; exists c; rewrite ?Z.eqb_eq in *; tauto.
Qed.

Lemma LookupPortLocal_false (eps : EndPoints) (port : Z) :
  LookupPortLocal eps port = false <->
  forall c, In c eps -> local_port c <> port.
Proof.
  split.
  - intros H c Hin Hp.
    assert (LookupPortLocal eps port = true); [|congruence].
    apply LookupPortLocal_In, in_map_iff. eauto.
  - intros H. destruct (LookupPortLocal eps port) eqn:E; [|reflexivity].
    apply LookupPortLocal_In, in_map_iff in E.
    destruct E as [c [Hp Hin]]. now destruct (H c Hin).
Qed.

(** The loop ends within the fuel [ephemeral_scan] gives it. *)
Lemma ephemeral_loop_total (eps : EndPoints) (first last : Z) (fuel : nat) :
  forall count port,
    (Z.to_nat (count + 1) < fuel)%nat ->
    exists r, ephemeral_loop fuel eps first last count port = Some r.
Proof.
  induction fuel as [|fuel IH]; intros count port Hf; [lia|].
  cbn [ephemeral_loop].
  destruct (Z.ltb_spec count 0); [eauto|].
  destruct (LookupPortLocal eps (next_port first last port)); [|eauto].
  apply IH. lia.
Qed.

Lemma ephemeral_scan_total (d : Ipv6EndPointDemux) :
  exists r, ephemeral_scan d = Some r.
Proof.
  unfold ephemeral_scan, ephemeral_fuel. apply ephemeral_loop_total. lia.
Qed.

Lemma next_port_in_range (first last port : Z) :
  first <= last -> first <= next_port first last port <= last.
Proof.
  intros H. unfold next_port. rewrite Z.gtb_ltb.
  destruct (Z.ltb_spec ((port + 1) mod (uint16_max + 1)) first),
    (Z.ltb_spec last ((port + 1) mod (uint16_max + 1))); cbn [orb]; lia.
Qed.

(** A port the loop settles on is held by no endpoint. *)
Lemma ephemeral_loop_found (eps : EndPoints) (first last : Z) (fuel : nat) :
  forall count port found,
    ephemeral_loop fuel eps first last count port = Some (ScanFound found) ->
    LookupPortLocal eps found = false
    /\ 0 <= count
    /\ (first <= last -> first <= found <= last).
Proof.
  induction fuel as [|fuel IH]; intros count port found; [discriminate|].
  cbn [ephemeral_loop].
  destruct (Z.ltb_spec count 0); [discriminate|].
  destruct (LookupPortLocal eps (next_port first last port)) eqn:E.
  - intros H'. apply IH in H'. repeat split; try tauto; lia.
  - intros [= <-]. repeat split; auto; now apply next_port_in_range.
Qed.

(** The loop stops on the first candidate when no endpoint holds it. *)
Lemma ephemeral_loop_first (eps : EndPoints) (first last : Z) (fuel : nat)
    (count port : Z) :
  0 <= count ->
  LookupPortLocal eps (next_port first last port) = false ->
  ephemeral_loop (S fuel) eps first last count port =
  Some (ScanFound (next_port first last port)).
Proof.
  intros Hc Hfree. cbn [ephemeral_loop].
  destruct (Z.ltb_spec count 0); [lia|]. now rewrite Hfree.
Qed.

(** When every port of the range is held, the loop gives up. *)
Lemma ephemeral_loop_all_held (eps : EndPoints) (first last : Z)
    (fuel : nat) :
  (forall p, first <= p <= last -> LookupPortLocal eps p = true) ->
  forall count port,
    count < 0 \/ first <= last ->
    (Z.to_nat (count + 1) < fuel)%nat ->
    ephemeral_loop fuel eps first last count port = Some ScanExhausted.
Proof.
  intros Hheld. induction fuel as [|fuel IH]; intros count port Hr Hf; [lia|].
  cbn [ephemeral_loop].
  destruct (Z.ltb_spec count 0); [reflexivity|].
  assert (Hfl : first <= last) by lia.
  rewrite (Hheld _ (next_port_in_range first last port Hfl)).
  apply IH; [now right|lia].
Qed.

(** What a successful [Allocate ()] does. *)
Lemma AllocateEphemeralPort_spec (d : Ipv6EndPointDemux) :
  let '(port, d') := AllocateEphemeralPort d in
  m_endPoints d' = m_endPoints d
  /\ m_portFirst d' = m_portFirst d
  /\ m_portLast d' = m_portLast d
  /\ (port <> 0 ->
      LookupPortLocal (m_endPoints d) port = false
      /\ m_ephemeral d' = port
      /\ m_portFirst d <= port <= m_portLast d).
Proof.
  unfold AllocateEphemeralPort.
  destruct (ephemeral_scan d) as [[|port]|] eqn:E; cbn; repeat split;
    try congruence.
  all: unfold ephemeral_scan in E; apply ephemeral_loop_found in E.
  all: try tauto; lia.
Qed.

Lemma Allocate_addr_Some (d d' : Ipv6EndPointDemux) (address : Ipv6Address)
    (c : Cell) :
  Allocate_addr d address = (Some c, d') ->
  c = (new_ptr (m_endPoints d), Ipv6EndPoint_new address (local_port c))
  /\ local_port c <> 0
  /\ LookupPortLocal (m_endPoints d) (local_port c) = false
  /\ m_endPoints d' = m_endPoints d ++ [c]
  /\ m_ephemeral d' = local_port c
  /\ m_portFirst d' = m_portFirst d
  /\ m_portLast d' = m_portLast d
  /\ m_portFirst d <= local_port c <= m_portLast d.
Proof.
  unfold Allocate_addr.
  pose proof (AllocateEphemeralPort_spec d) as H.
  destruct (AllocateEphemeralPort d) as [port d0].
  destruct H as (He & Hf & Hl & Hp).
  destruct (Z.eqb_spec port 0) as [|Hne]; [discriminate|].
  intros [= <- <-]. destruct (Hp Hne) as (H1 & H2 & H3 & H4).
  cbn. rewrite He. repeat split; auto.
Qed.

Lemma Allocate_is_Allocate_addr (d : Ipv6EndPointDemux) :
  Allocate d = Allocate_addr d Ipv6Addr.GetAny.
Proof. reflexivity. Qed.

(** ** Local port 0 *)

Lemma no_port_zero_app (eps : EndPoints) (c : Cell) :
  no_port_zero eps -> local_port c <> 0 -> no_port_zero (eps ++ [c]).
Proof.
  intros H Hc x Hx. apply in_app_or in Hx.
  destruct Hx as [Hx|[<-|[]]]; auto.
Qed.

(** A call that does not ask for port 0 returns no endpoint with local
    port 0 and keeps the collection free of it. *)
Lemma do_call_port (d : Ipv6EndPointDemux) (c : call) :
  no_port_zero (m_endPoints d) ->
  requested_port c <> Some 0 ->
  (forall cell, fst (do_call d c) = Some cell -> local_port cell <> 0)
  /\ no_port_zero (m_endPoints (snd (do_call d c))).
Proof.
  intros Hd Hc.
  assert (Heph : forall address,
             (forall cell, fst (Allocate_addr d address) = Some cell ->
                           local_port cell <> 0)
             /\ no_port_zero (m_endPoints (snd (Allocate_addr d address)))).
  { intros address.
    destruct (Allocate_addr d address) as [[cell|] d'] eqn:E; cbn [fst snd].
    - apply Allocate_addr_Some in E.
      destruct E as (_ & Hp & _ & He & _).
      split; [now intros ? [= <-]|].
      rewrite He. now apply no_port_zero_app.
    - split; [discriminate|].
      unfold Allocate_addr in E.
      pose proof (AllocateEphemeralPort_spec d) as H.
      destruct (AllocateEphemeralPort d) as [port d0].
      destruct (port =? 0); [|discriminate].
      injection E as <-. destruct H as [-> _]. exact Hd. }
  assert (Hexp : forall dev address port,
             port <> 0 ->
             (forall cell,
                 fst (Allocate_dev_addr_port d dev address port) = Some cell ->
                 local_port cell <> 0)
             /\ no_port_zero
                  (m_endPoints
                     (snd (Allocate_dev_addr_port d dev address port)))).
  { intros dev address port Hp. unfold Allocate_dev_addr_port.
    destruct (LookupLocal _ _ _ _ || LookupLocal _ _ _ _); cbn [fst snd].
    - split; [discriminate|exact Hd].
    - split; [now intros ? [= <-]|].
      now apply no_port_zero_app. }
  destruct c as [|address|dev port|dev address port|dev la lp pa pp];
    cbn [do_call requested_port] in *.
  - apply Heph.
  - apply Heph.
  - apply Hexp. congruence.
  - apply Hexp. congruence.
  - assert (lp <> 0) by congruence. unfold Allocate_full.
    match goal with |- context [if ?b then _ else _] => destruct b end;
      cbn [fst snd].
    + split; [discriminate|exact Hd].
    + split; [now intros ? [= <-]|].
      now apply no_port_zero_app.
Qed.

(** C5, as the code has it: [Allocate ()] and [Allocate (address)] never
    return an endpoint with local port 0; the forms that take a local port
    store the port they are given.  So along any sequence of allocation
    calls none of which asks for port 0, on a collection without port 0,
    no endpoint returned and no endpoint of the collection has local
    port 0. *)
Theorem Allocate_never_port_zero
    (d : Ipv6EndPointDemux) (calls : list call) :
  no_port_zero (m_endPoints d) ->
  (forall c, In c calls -> requested_port c <> Some 0) ->
  (forall cell, In (Some cell) (fst (run d calls)) -> local_port cell <> 0)
  /\ no_port_zero (m_endPoints (snd (run d calls)))
  /\ (forall address cell,
         fst (Allocate_addr d address) = Some cell -> local_port cell <> 0)
  /\ (forall cell, fst (Allocate d) = Some cell -> local_port cell <> 0)
  /\ (forall dev address port cell,
         fst (Allocate_dev_addr_port d dev address port) = Some cell ->
         local_port cell = port)
  /\ (forall dev la lp pa pp cell,
         fst (Allocate_full d dev la lp pa pp) = Some cell ->
         local_port cell = lp).
Proof.
  intros Hd Hcalls.
  assert (Hrun : (forall cell, In (Some cell) (fst (run d calls)) ->
                               local_port cell <> 0)
                 /\ no_port_zero (m_endPoints (snd (run d calls)))).
  { revert d Hd. induction calls as [|c rest IH]; intros d Hd.
    - cbn. split; [intros ? []|exact Hd].
    - cbn [run].
      destruct (do_call_port d c Hd (Hcalls c (or_introl eq_refl)))
        as [Hr Hd1].
      destruct (do_call d c) as [r d1]; cbn [fst snd] in *.
      specialize (IH (fun x Hx => Hcalls x (or_intror Hx)) d1 Hd1).
      destruct (run d1 rest) as [rs d2]; cbn [fst snd] in *.
      destruct IH as [IH1 IH2]. split; [|exact IH2].
      intros cell [->|Hin]; [now apply Hr|now apply IH1]. }
  destruct Hrun as [H1 H2]. repeat split; auto.
  - intros address cell E.
    destruct (Allocate_addr d address) as [r d'] eqn:E'.
    cbn [fst] in E; subst r. apply Allocate_addr_Some in E'. tauto.
  - intros cell E. rewrite Allocate_is_Allocate_addr in E.
    destruct (Allocate_addr d Ipv6Addr.GetAny) as [r d'] eqn:E'.
    cbn [fst] in E; subst r. apply Allocate_addr_Some in E'. tauto.
  - intros dev address port cell. unfold Allocate_dev_addr_port.
    destruct (LookupLocal _ _ _ _ || LookupLocal _ _ _ _); cbn [fst];
      [discriminate|now intros [= <-]].
  - intros dev la lp pa pp cell. unfold Allocate_full.
    match goal with |- context [if ?b then _ else _] => destruct b end;
      cbn [fst]; [discriminate|now intros [= <-]].
Qed.

(** On a new demultiplexer, an ephemeral allocation followed by a binding
    of port 8080 leaves no port 0 in the collection. *)
Lemma Allocate_never_port_zero_witness :
  no_port_zero
    (m_endPoints
       (snd (run Ipv6EndPointDemux_new
               [ Call_Allocate; Call_Allocate_dev_port None 8080 ]))).
Proof.
  apply (Allocate_never_port_zero Ipv6EndPointDemux_new
           [ Call_Allocate; Call_Allocate_dev_port None 8080 ]).
  - intros c [].
  - intros c [<-|[<-|[]]]; cbn; congruence.
Defined.

(** C5 as stated fails: on a new demultiplexer, binding port 0 on the
    wildcard address succeeds and puts local port 0 into the
    collection. *)
Lemma Allocate_port_zero_accepted : ~ never_port_zero.
Proof.
  intros H.
  destruct (H [ Call_Allocate_dev_port None 0 ]) as [H1 _].
  apply (H1 (1%nat, Ipv6EndPoint_new Ipv6Addr.GetAny 0)).
  - left; reflexivity.
  - reflexivity.
Qed.

(** ** Allocation followed by deallocation *)

Lemma new_ptr_fresh (eps : EndPoints) (c : Cell) :
  In c eps -> fst c <> new_ptr eps.
Proof.
  intros Hin. unfold new_ptr.
  assert (H : Forall (fun k => (k <= list_max (map fst eps))%nat)
                (map fst eps)) by (now apply list_max_le).
  rewrite Forall_forall in H.
  specialize (H (fst c) (in_map fst eps c Hin)). lia.
Qed.

Lemma erase_first_last (ptr : EndPointPtr) (e : Ipv6EndPoint)
    (eps : EndPoints) :
  (forall c, In c eps -> fst c <> ptr) ->
  erase_first ptr (eps ++ [(ptr, e) : Cell]) = eps.
Proof.
  induction eps as [|c rest IH]; intros H; cbn [app erase_first fst].
  - now rewrite Nat.eqb_refl.
  - destruct (Nat.eqb_spec (fst c) ptr) as [E|_].
    + now destruct (H c (or_introl eq_refl)).
    + f_equal. apply IH. intros x Hx. apply H. now right.
Qed.

(** Inside the range the next candidate is the next port, and the first
    port after the last. *)
Lemma next_port_succ (first last cur : Z) :
  0 <= first -> last <= uint16_max -> first <= cur <= last ->
  next_port first last cur = if cur =? last then first else cur + 1.
Proof.
  intros Hf Hl Hc. unfold next_port, uint16_max in *. rewrite Z.gtb_ltb.
  destruct (Z.eq_dec (cur + 1) (65535 + 1)) as [E|E].
  - rewrite E, Z_mod_same_full.
    destruct (Z.ltb_spec 0 first), (Z.ltb_spec last 0), (Z.eqb_spec cur last);
      cbn [orb]; lia.
  - rewrite Z.mod_small by lia.
    destruct (Z.ltb_spec (cur + 1) first), (Z.ltb_spec last (cur + 1)),
      (Z.eqb_spec cur last); cbn [orb]; lia.
Qed.

(** When [p] is the only port of the range that no endpoint holds, the
    scan goes round the range from any cursor and settles on [p], if the
    counter allows the [n] steps from the cursor to [p]. *)
Lemma ephemeral_loop_wraps (eps : EndPoints) (first last p : Z) :
  0 <= first -> last <= uint16_max -> first <= p <= last ->
  LookupPortLocal eps p = false ->
  (forall q, first <= q <= last -> q <> p -> LookupPortLocal eps q = true) ->
  forall (n fuel : nat) (count cur : Z),
    first <= cur <= last ->
    Z.of_nat n = (if cur <? p then p - cur else p - cur + (last - first + 1)) ->
    Z.of_nat n <= count + 1 ->
    (n <= fuel)%nat ->
    ephemeral_loop fuel eps first last count cur = Some (ScanFound p).
Proof.
  intros Hf Hl Hp Hfree Hheld.
  induction n as [|n IH]; intros fuel count cur Hc Hn Hcount Hfuel.
  - destruct (Z.ltb_spec cur p); lia.
  - destruct fuel as [|fuel]; [lia|]. cbn [ephemeral_loop].
    destruct (Z.ltb_spec count 0); [lia|].
    rewrite (next_port_succ first last cur Hf Hl Hc).
    set (cand := if cur =? last then first else cur + 1).
    assert (Hcand : first <= cand <= last)
      by (unfold cand; destruct (Z.eqb_spec cur last); lia).
    destruct (Z.eq_dec cand p) as [E|E].
    + rewrite E, Hfree. reflexivity.
    + rewrite (Hheld cand Hcand E).
      apply IH; [exact Hcand| |lia|lia].
      unfold cand in *.
      destruct (Z.eqb_spec cur last), (Z.ltb_spec cur p);
        match goal with |- context [?a <? p] => destruct (Z.ltb_spec a p) end;
        lia.
Qed.

(** C9: after a successful [Allocate ()] that returned an endpoint with
    port [p] and a [DeAllocate] of that endpoint, the collection is the
    one before the allocation and no endpoint in it holds [p].  A later
    scan takes [p] again when it comes to it: from a cursor just before
    [p] at once, and from the cursor left on [p], when the other ports of
    the range are all held, after going round the whole range. *)
Theorem Allocate_DeAllocate_frees_port
    (d d1 : Ipv6EndPointDemux) (ptr : EndPointPtr) (e : Ipv6EndPoint) :
  Allocate d = (Some (ptr, e), d1) ->
  m_endPoints (DeAllocate d1 ptr) = m_endPoints d
  /\ (forall c, In c (m_endPoints (DeAllocate d1 ptr)) ->
                local_port c <> GetLocalPort e)
  /\ LookupPortLocal (m_endPoints (DeAllocate d1 ptr)) (GetLocalPort e)
     = false
  /\ m_ephemeral (DeAllocate d1 ptr) = GetLocalPort e
  /\ (forall cursor,
         next_port (m_portFirst d) (m_portLast d) cursor = GetLocalPort e ->
         exists ptr',
           fst (Allocate (with_ephemeral (DeAllocate d1 ptr) cursor)) =
           Some (ptr', e))
  /\ (0 <= m_portFirst d -> m_portLast d <= uint16_max ->
      (forall q, m_portFirst d <= q <= m_portLast d -> q <> GetLocalPort e ->
                 LookupPortLocal (m_endPoints d) q = true) ->
      exists ptr', fst (Allocate (DeAllocate d1 ptr)) = Some (ptr', e)).
Proof.
  intros HA. rewrite Allocate_is_Allocate_addr in HA.
  apply Allocate_addr_Some in HA.
  destruct HA as (Hc & Hne & Hfree & He & Hcur & Hf & Hl & Hfl).
  unfold local_port in *. cbn [snd fst] in *.
  injection Hc as Hptr Hnew.
  assert (Hnew_ptr : forall c, In c (m_endPoints d) -> fst c <> ptr)
    by (intros c Hin; rewrite Hptr; now apply new_ptr_fresh).
  pose proof (erase_first_last ptr e (m_endPoints d) Hnew_ptr) as Herase.
  assert (Heps : m_endPoints (DeAllocate d1 ptr) = m_endPoints d).
  { unfold DeAllocate. cbn [m_endPoints with_endPoints]. now rewrite He. }
  split; [exact Heps|]. rewrite Heps.
  split; [now apply LookupPortLocal_false|].
  split; [exact Hfree|].
  split; [exact Hcur|].
  split.
  - intros cursor Hnext. exists (new_ptr (m_endPoints d)).
    unfold Allocate, AllocateEphemeralPort, ephemeral_scan, ephemeral_fuel.
    cbn [m_endPoints m_ephemeral m_portFirst m_portLast with_ephemeral
           with_endPoints DeAllocate].
    rewrite Hf, Hl, He, Herase.
    rewrite ephemeral_loop_first by (rewrite ?Hnext; auto; lia).
    rewrite Hnext.
    destruct (Z.eqb_spec (GetLocalPort e) 0) as [|_]; [contradiction|].
    cbn [fst m_endPoints with_ephemeral]. rewrite Heps. now rewrite <- Hnew.
  - intros H0 Hu16 Hheld. exists (new_ptr (m_endPoints d)).
    unfold Allocate, AllocateEphemeralPort, ephemeral_scan, ephemeral_fuel.
    cbn [m_endPoints m_ephemeral m_portFirst m_portLast with_ephemeral
           with_endPoints DeAllocate].
    rewrite Hf, Hl, He, Herase, Hcur.
    rewrite (ephemeral_loop_wraps (m_endPoints d) (m_portFirst d)
               (m_portLast d) (GetLocalPort e) H0 Hu16 Hfl Hfree Hheld
               (Z.to_nat (m_portLast d - m_portFirst d + 1)));
      [|exact Hfl|rewrite Z.ltb_irrefl; lia|lia|lia].
    destruct (Z.eqb_spec (GetLocalPort e) 0) as [|_]; [contradiction|].
    cbn [fst m_endPoints with_ephemeral]. rewrite Heps. now rewrite <- Hnew.
Qed.

(** On a new demultiplexer the first [Allocate ()] gives port 49153; once
    the endpoint is deallocated, port 49153 is free again and a scan from
    cursor 49152 hands it out a second time. *)
Lemma Allocate_DeAllocate_frees_port_witness :
  LookupPortLocal
    (m_endPoints
       (DeAllocate (snd (Allocate Ipv6EndPointDemux_new)) 1%nat)) 49153
  = false.
Proof.
  apply (Allocate_DeAllocate_frees_port Ipv6EndPointDemux_new
           (snd (Allocate Ipv6EndPointDemux_new)) 1%nat
           (Ipv6EndPoint_new Ipv6Addr.GetAny 49153)).
  reflexivity.
Defined.

(** ** Exhaustion of the ephemeral range *)

Section EphemeralRange.
Variables first last : Z.
Hypothesis first_pos : 0 < first.
Hypothesis last_u16 : last <= uint16_max.

Local Abbreviation M := (last - first + 1).
Local Abbreviation N := (Z.to_nat (last - first + 1)).
Local Abbreviation port_of := (nth_port first last).

Lemma nth_port_eq (i : nat) :
  0 < M -> Z.of_nat i <= M ->
  port_of i = if Z.of_nat i =? M then first else first + Z.of_nat i.
Proof.
  intros HM Hi. unfold nth_port.
  destruct (Z.eqb_spec (Z.of_nat i) M) as [E|E].
  - rewrite E, Z_mod_same_full. lia.
  - rewrite Z.mod_small by lia. reflexivity.
Qed.

Lemma nth_port_0 : port_of 0 = first.
Proof. unfold nth_port. cbn [Z.of_nat]. rewrite Zmod_0_l. lia. Qed.

Lemma next_port_nth (k : nat) :
  Z.of_nat k < M ->
  next_port first last (port_of k) = port_of (S k).
Proof.
  intros Hk.
  rewrite (nth_port_eq k), (nth_port_eq (S k)) by lia.
  destruct (Z.eqb_spec (Z.of_nat k) M) as [|_]; [lia|].
  unfold next_port, uint16_max in *. rewrite Z.gtb_ltb.
  destruct (Z.eq_dec (first + Z.of_nat k + 1) (65535 + 1)) as [E|E].
  - rewrite E, Z_mod_same_full.
    destruct (Z.ltb_spec 0 first); [|lia]. cbn [orb].
    destruct (Z.eqb_spec (Z.of_nat (S k)) M); lia.
  - rewrite Z.mod_small by lia.
    destruct (Z.ltb_spec (first + Z.of_nat k + 1) first),
      (Z.ltb_spec last (first + Z.of_nat k + 1)),
      (Z.eqb_spec (Z.of_nat (S k)) M); cbn [orb]; lia.
Qed.

Lemma nth_port_new (k : nat) :
  Z.of_nat k < M -> ~ In (port_of (S k)) (map port_of (seq 1 k)).
Proof.
  intros Hk Hin. apply in_map_iff in Hin. destruct Hin as [i [E Hi]].
  apply in_seq in Hi.
  rewrite (nth_port_eq i), (nth_port_eq (S k)) in E by lia.
  destruct (Z.eqb_spec (Z.of_nat i) M), (Z.eqb_spec (Z.of_nat (S k)) M);
    lia.
Qed.

Lemma nth_port_all (p : Z) :
  first <= p <= last -> In p (map port_of (seq 1 N)).
Proof.
  intros Hp. apply in_map_iff.
  destruct (Z.eq_dec p first) as [->|Hne].
  - exists N. split; [|apply in_seq; lia].
    rewrite nth_port_eq by lia.
    destruct (Z.eqb_spec (Z.of_nat N) M); lia.
  - exists (Z.to_nat (p - first)). split; [|apply in_seq; lia].
    rewrite nth_port_eq by lia.
    destruct (Z.eqb_spec (Z.of_nat (Z.to_nat (p - first))) M); lia.
Qed.

Lemma nth_port_NoDup : NoDup (map port_of (seq 1 N)).
Proof.
  apply NoDup_map_NoDup_ForallPairs; [|apply seq_NoDup].
  intros a b Ha Hb E. apply in_seq in Ha, Hb.
  rewrite (nth_port_eq a), (nth_port_eq b) in E by lia.
  destruct (Z.eqb_spec (Z.of_nat a) M), (Z.eqb_spec (Z.of_nat b) M); lia.
Qed.

Lemma served_fresh : served first last 0 (fresh first last).
Proof. unfold served, fresh. cbn. now rewrite nth_port_0. Qed.

(** While ports are left, [Allocate ()] hands out the next one. *)
Lemma served_step (k : nat) (d : Ipv6EndPointDemux) :
  (k < N)%nat -> served first last k d ->
  exists c d',
    Allocate d = (Some c, d')
    /\ local_port c = port_of (S k)
    /\ served first last (S k) d'.
Proof.
  intros Hk (Hf & Hl & Hc & Hp).
  assert (Hfree : LookupPortLocal (m_endPoints d) (port_of (S k)) = false).
  { destruct (LookupPortLocal _ _) eqn:E; [|reflexivity].
    apply LookupPortLocal_In in E. rewrite Hp in E.
    apply nth_port_new in E; [destruct E|lia]. }
  assert (Hne : port_of (S k) <> 0).
  { rewrite nth_port_eq by lia.
    destruct (Z.eqb_spec (Z.of_nat (S k)) M); lia. }
  eexists _, _. split; [|split].
  - unfold Allocate, AllocateEphemeralPort, ephemeral_scan, ephemeral_fuel.
    rewrite Hf, Hl, Hc.
    rewrite ephemeral_loop_first
      by (rewrite ?next_port_nth by lia; auto; lia).
    rewrite next_port_nth by lia.
    destruct (Z.eqb_spec (port_of (S k)) 0) as [|_]; [contradiction|].
    reflexivity.
  - reflexivity.
  - unfold served, push_back.
    cbn [m_portFirst m_portLast m_ephemeral m_endPoints with_endPoints
           with_ephemeral].
    rewrite map_app, Hp, seq_S, map_app. auto.
Qed.

(** When the range is used up, [Allocate ()] returns null. *)
Lemma served_all (d : Ipv6EndPointDemux) :
  served first last N d -> Allocate d = (None, d).
Proof.
  intros (Hf & Hl & Hc & Hp).
  unfold Allocate, AllocateEphemeralPort, ephemeral_scan, ephemeral_fuel.
  rewrite Hf, Hl.
  rewrite ephemeral_loop_all_held; [reflexivity| |lia|lia].
  intros p Hr. apply LookupPortLocal_In. rewrite Hp.
  now apply nth_port_all.
Qed.

Lemma run_Allocate_served (n : nat) :
  forall k d,
    served first last k d -> (k + n = N)%nat ->
    exists cells,
      fst (run d (repeat Call_Allocate (S n))) = map Some cells ++ [None]
      /\ map local_port cells = map port_of (seq (S k) n).
Proof.
  induction n as [|n IH]; intros k d Hs Hk.
  - exists []. replace k with N in Hs by lia.
    cbn [repeat run do_call]. rewrite (served_all d Hs). auto.
  - destruct (served_step k d) as (c & d' & HA & Hc & Hs'); [lia|auto|].
    destruct (IH (S k) d' Hs') as (cells & Hr & Hp); [lia|].
    exists (c :: cells). change (repeat Call_Allocate (S (S n)))
      with (Call_Allocate :: repeat Call_Allocate (S n)).
    cbn [run do_call]. rewrite HA.
    destruct (run d' (repeat Call_Allocate (S n))) as [rs d2].
    cbn [fst] in *. rewrite Hr. cbn. now rewrite Hc, Hp.
Qed.

Lemma exhausts_after_range_ports :
  exists cells,
    fst (run (fresh first last) (repeat Call_Allocate (S N))) =
      map Some cells ++ [None]
    /\ map local_port cells = map port_of (seq 1 N).
Proof. apply (run_Allocate_served N 0%nat); [apply served_fresh|lia]. Qed.
End EphemeralRange.

(** The range is set by the constructor and by nothing else: no
    allocation and no deallocation writes [m_portFirst] or [m_portLast]. *)
Lemma range_is_fixed (d : Ipv6EndPointDemux) (ops : list op) :
  m_portFirst (run_ops d ops) = m_portFirst d
  /\ m_portLast (run_ops d ops) = m_portLast d.
Proof.
  revert d. induction ops as [|o ops IH]; intros d; [now split|].
  cbn [run_ops fold_left]. fold (run_ops (do_op d o) ops).
  destruct (IH (do_op d o)) as [-> ->].
  assert (Heph : forall address,
             m_portFirst (snd (Allocate_addr d address)) = m_portFirst d
             /\ m_portLast (snd (Allocate_addr d address)) = m_portLast d).
  { intros address. unfold Allocate_addr.
    pose proof (AllocateEphemeralPort_spec d) as H.
    destruct (AllocateEphemeralPort d) as [port d0].
    destruct H as (_ & Hf & Hl & _).
    destruct (port =? 0); cbn; auto. }
  destruct o as [[|address|dev port|dev address port|dev la lp pa pp]|ptr];
    cbn [do_op do_call].
  - apply Heph.
  - apply Heph.
  - unfold Allocate_dev_port, Allocate_dev_addr_port.
    destruct (LookupLocal _ _ _ _ || LookupLocal _ _ _ _); now split.
  - unfold Allocate_dev_addr_port.
    destruct (LookupLocal _ _ _ _ || LookupLocal _ _ _ _); now split.
  - unfold Allocate_full.
    match goal with |- context [if ?b then _ else _] => destruct b end;
      now split.
  - now split.
Qed.

(** C4: a new demultiplexer whose ephemeral range [first..last] holds
    [N] ports serves the first [N] calls of [Allocate ()] with [N]
    distinct ports, the ports first+1, ..., last, first in this order, and
    fails the call after them.  A range is a range of ports, within 1 to
    65535; 0 is no port but the value by which the scan tells that none is
    left.  The demultiplexer that the constructor makes, with the range
    49152..65535, is one such, and with the range 49152..49154 the ports
    are 49153, 49154, 49152 and the fourth call fails. *)
Theorem Allocate_exhausts_range (first last : Z) :
  0 < first -> last <= uint16_max ->
  exhausts_after_range first last
  /\ map (option_map local_port)
       (fst (run (fresh first last)
               (repeat Call_Allocate (S (Z.to_nat (last - first + 1)))))) =
     map (fun i => Some (nth_port first last i))
       (seq 1 (Z.to_nat (last - first + 1))) ++ [None]
  /\ map (option_map local_port)
       (fst (run (fresh 49152 49154) (repeat Call_Allocate 4))) =
     [Some 49153; Some 49154; Some 49152; None]
  /\ exhausts_after_range (m_portFirst Ipv6EndPointDemux_new)
       (m_portLast Ipv6EndPointDemux_new).
Proof.
  intros Hf Hl.
  assert (Hgen : forall f l, 0 < f -> l <= uint16_max ->
                             exhausts_after_range f l).
  { intros f l Hf' Hl'.
    destruct (exhausts_after_range_ports f l Hf' Hl') as (cells & Hr & Hp).
    exists cells. repeat split; auto.
    - rewrite <- (length_map local_port), Hp, length_map. apply length_seq.
    - rewrite Hp. now apply nth_port_NoDup. }
  destruct (exhausts_after_range_ports first last Hf Hl)
    as (cells & Hr & Hp).
  split; [|split; [|split]].
  - now apply Hgen.
  - rewrite Hr, map_app, !map_map. cbn [map option_map]. f_equal.
    rewrite <- (map_map local_port Some), Hp. now rewrite map_map.
  - vm_compute. reflexivity.
  - change (exhausts_after_range 49152 65535).
    apply Hgen; unfold uint16_max; lia.
Qed.

Lemma Allocate_exhausts_range_witness : exhausts_after_range 49152 49154.
Proof.
  refine (proj1 (Allocate_exhausts_range 49152 49154 _ _));
    unfold uint16_max; lia.
Defined.

(** * Further properties of the demultiplexer *)

(** ** Deallocation *)

Lemma with_endPoints_same (d : Ipv6EndPointDemux) :
  with_endPoints d (m_endPoints d) = d.
Proof. now destruct d. Qed.

Lemma erase_first_absent (ptr : EndPointPtr) (eps : EndPoints) :
  (forall c, In c eps -> fst c <> ptr) -> erase_first ptr eps = eps.
Proof.
  induction eps as [|c rest IH]; intros H; [reflexivity|].
  cbn [erase_first].
  destruct (Nat.eqb_spec (fst c) ptr) as [E|_].
  - now destruct (H c (or_introl eq_refl)).
  - f_equal. apply IH. intros x Hx. apply H. now right.
Qed.

Lemma erase_first_split (ptr : EndPointPtr) (l1 : EndPoints) (c : Cell)
    (l2 : EndPoints) :
  fst c = ptr -> (forall x, In x l1 -> fst x <> ptr) ->
  erase_first ptr (l1 ++ c :: l2) = l1 ++ l2.
Proof.
  intros Hc. induction l1 as [|x l1 IH]; intros H; cbn [app erase_first].
  - destruct (Nat.eqb_spec (fst c) ptr); [reflexivity|contradiction].
  - destruct (Nat.eqb_spec (fst x) ptr) as [E|_].
    + now destruct (H x (or_introl eq_refl)).
    + f_equal. apply IH. intros y Hy. apply H. now right.
Qed.

(** What [erase_first] leaves is the list itself or the list without one
    of its elements. *)
Lemma erase_first_cases (ptr : EndPointPtr) (eps : EndPoints) :
  erase_first ptr eps = eps
  \/ exists l1 c l2, eps = l1 ++ c :: l2 /\ fst c = ptr
                     /\ (forall x, In x l1 -> fst x <> ptr)
                     /\ erase_first ptr eps = l1 ++ l2.
Proof.
  destruct (existsb (fun c => Nat.eqb (fst c) ptr) eps) eqn:E.
  - right. apply existsb_exists in E.
    destruct (first_split (fun c => Nat.eqb (fst c) ptr) eps E)
      as (l1 & c & l2 & -> & Hc & Hl1).
    apply Nat.eqb_eq in Hc.
    assert (Hl1' : forall x, In x l1 -> fst x <> ptr).
    { intros x Hx. apply Nat.eqb_neq. now apply Hl1. }
    exists l1, c, l2. repeat split; auto. now apply erase_first_split.
  - left. apply erase_first_absent. intros c Hin Hc.
    assert (existsb (fun c => Nat.eqb (fst c) ptr) eps = true);
      [|congruence].
    apply existsb_exists. exists c. split; [exact Hin|now apply Nat.eqb_eq].
Qed.

(** X5: [DeAllocate] of a pointer that is not in the collection changes
    nothing; otherwise it takes out the first endpoint with that pointer,
    and only that one: the endpoints before and after it stay, in their
    order, and the cursor and the range are untouched. *)
Theorem DeAllocate_erases_one
    (d : Ipv6EndPointDemux) (endPoint : EndPointPtr) :
  ((forall c, In c (m_endPoints d) -> fst c <> endPoint) ->
   DeAllocate d endPoint = d)
  /\ (forall l1 c l2,
         m_endPoints d = l1 ++ c :: l2 ->
         fst c = endPoint ->
         (forall x, In x l1 -> fst x <> endPoint) ->
         m_endPoints (DeAllocate d endPoint) = l1 ++ l2
         /\ length (m_endPoints d) =
            S (length (m_endPoints (DeAllocate d endPoint))))
  /\ m_ephemeral (DeAllocate d endPoint) = m_ephemeral d
  /\ m_portFirst (DeAllocate d endPoint) = m_portFirst d
  /\ m_portLast (DeAllocate d endPoint) = m_portLast d.
Proof.
  split; [|split; [|repeat split]].
  - intros H. unfold DeAllocate. rewrite erase_first_absent by exact H.
    apply with_endPoints_same.
  - intros l1 c l2 E Hc Hl1. unfold DeAllocate.
    cbn [m_endPoints with_endPoints]. rewrite E.
    rewrite erase_first_split by assumption.
    split; [reflexivity|]. rewrite !length_app. cbn [length]. lia.
Qed.

Lemma DeAllocate_erases_one_witness :
  DeAllocate
    (with_endPoints Ipv6EndPointDemux_new [ (1%nat, Ipv6EndPoint_new 10 80) ])
    2%nat =
  with_endPoints Ipv6EndPointDemux_new [ (1%nat, Ipv6EndPoint_new 10 80) ].
Proof.
  apply (proj1 (DeAllocate_erases_one
                  (with_endPoints Ipv6EndPointDemux_new
                     [ (1%nat, Ipv6EndPoint_new 10 80) ]) 2%nat)).
  intros c [<-|[]]. cbn. lia.
Defined.

(** ** What an allocation call does to the collection *)

Lemma LookupLocal_false (eps : EndPoints) (dev : NetDevicePtr)
    (addr : Ipv6Address) (port : Z) :
  LookupLocal eps dev addr port = false ->
  forall c, In c eps -> GetLocalPort (snd c) = port ->
            GetLocalAddress (snd c) = addr ->
            GetBoundNetDevice (snd c) <> dev.
Proof.
  intros H c Hin Hp Ha Hd.
  assert (LookupLocal eps dev addr port = true); [|congruence].
  apply LookupLocal_true. exists c. tauto.
Qed.

Lemma is_bound_false (p : NetDevicePtr) : is_bound p = false <-> p = None.
Proof. destruct p; cbn; split; congruence. Qed.

Lemma Allocate_full_None (d : Ipv6EndPointDemux) (dev : NetDevicePtr)
    (la : Ipv6Address) (lp : Z) (pa : Ipv6Address) (pp : Z) :
  fst (Allocate_full d dev la lp pa pp) = None <->
  exists c, In c (m_endPoints d) /\ full_conflict dev la lp pa pp c.
Proof.
  unfold Allocate_full, full_conflict, tuple, Ipv6Addr.eqb.
  match goal with |- context [if ?b then _ else _] => destruct b eqn:E end;
    cbn [fst].
  - split; [intros _|reflexivity].
    apply existsb_exists in E. destruct E as (c & Hin & H).
    rewrite !andb_true_iff, orb_true_iff, negb_true_iff, !Z.eqb_eq,
      dev_eqb_eq, is_bound_false in H.
    exists c. split; [exact Hin|]. split; [|tauto].
    destruct H as [[[[-> ->] ->] ->] _]. reflexivity.
  - split; [discriminate|]. intros (c & Hin & Ht & Hd).
    assert (existsb
              (fun c =>
                 (GetLocalPort (snd c) =? lp)
                 && (GetLocalAddress (snd c) =? la)
                 && (GetPeerPort (snd c) =? pp)
                 && (GetPeerAddress (snd c) =? pa)
                 && (dev_eqb (GetBoundNetDevice (snd c)) dev
                     || negb (is_bound (GetBoundNetDevice (snd c)))))
              (m_endPoints d) = true) as E'; [|unfold Ipv6Addr.eqb in E;
                                                congruence].
    apply existsb_exists. exists c. split; [exact Hin|].
    injection Ht as -> -> -> ->.
    rewrite !Z.eqb_refl. cbn [andb].
    rewrite orb_true_iff, negb_true_iff, dev_eqb_eq, is_bound_false. tauto.
Qed.

(** The effect of one allocation call: the range stays; a call that
    returns null leaves the collection as it is; a call that returns an
    endpoint has appended it, at an address no endpoint has, bound to no
    device, with four fields that no endpoint without a device has, and,
    if the port came from the ephemeral range, a port no endpoint has. *)
Lemma do_call_effect (d : Ipv6EndPointDemux) (c : call) :
  m_portFirst (snd (do_call d c)) = m_portFirst d
  /\ m_portLast (snd (do_call d c)) = m_portLast d
  /\ match fst (do_call d c) with
     | None => m_endPoints (snd (do_call d c)) = m_endPoints d
     | Some cell =>
         m_endPoints (snd (do_call d c)) = m_endPoints d ++ [cell]
         /\ fst cell = new_ptr (m_endPoints d)
         /\ GetBoundNetDevice (snd cell) = None
         /\ (forall x, In x (m_endPoints d) ->
                       GetBoundNetDevice (snd x) = None ->
                       tuple x <> tuple cell)
         /\ (requested_port c = None ->
             forall x, In x (m_endPoints d) ->
                       local_port x <> local_port cell)
     end.
Proof.
  assert (Heph : forall address,
             m_portFirst (snd (Allocate_addr d address)) = m_portFirst d
             /\ m_portLast (snd (Allocate_addr d address)) = m_portLast d
             /\ match fst (Allocate_addr d address) with
                | None => m_endPoints (snd (Allocate_addr d address))
                          = m_endPoints d
                | Some cell =>
                    m_endPoints (snd (Allocate_addr d address))
                    = m_endPoints d ++ [cell]
                    /\ fst cell = new_ptr (m_endPoints d)
                    /\ GetBoundNetDevice (snd cell) = None
                    /\ (forall x, In x (m_endPoints d) ->
                                  GetBoundNetDevice (snd x) = None ->
                                  tuple x <> tuple cell)
                    /\ (None = None :> option Z ->
                        forall x, In x (m_endPoints d) ->
                                  local_port x <> local_port cell)
                end).
  { intros address.
    destruct (Allocate_addr d address) as [[cell|] d'] eqn:E; cbn [fst snd].
    - apply Allocate_addr_Some in E.
      destruct E as (Hc & Hne & Hfree & He & _ & Hf & Hl & _).
      rewrite LookupPortLocal_false in Hfree.
      repeat split; auto.
      + now rewrite Hc.
      + now rewrite Hc.
      + intros x Hx _ Ht. apply (Hfree x Hx). unfold tuple, local_port in *.
        congruence.
    - unfold Allocate_addr in E.
      pose proof (AllocateEphemeralPort_spec d) as H.
      destruct (AllocateEphemeralPort d) as [port d0].
      destruct (port =? 0); [|discriminate].
      injection E as <-. tauto. }
  assert (Hexp : forall dev address port,
             m_portFirst (snd (Allocate_dev_addr_port d dev address port))
             = m_portFirst d
             /\ m_portLast (snd (Allocate_dev_addr_port d dev address port))
                = m_portLast d
             /\ match fst (Allocate_dev_addr_port d dev address port) with
                | None =>
                    m_endPoints
                      (snd (Allocate_dev_addr_port d dev address port))
                    = m_endPoints d
                | Some cell =>
                    m_endPoints
                      (snd (Allocate_dev_addr_port d dev address port))
                    = m_endPoints d ++ [cell]
                    /\ fst cell = new_ptr (m_endPoints d)
                    /\ GetBoundNetDevice (snd cell) = None
                    /\ (forall x, In x (m_endPoints d) ->
                                  GetBoundNetDevice (snd x) = None ->
                                  tuple x <> tuple cell)
                    /\ (Some port = None ->
                        forall x, In x (m_endPoints d) ->
                                  local_port x <> local_port cell)
                end).
  { intros dev address port. unfold Allocate_dev_addr_port.
    destruct (LookupLocal (m_endPoints d) dev address port
              || LookupLocal (m_endPoints d) None address port) eqn:E;
      cbn [fst snd]; [auto|].
    apply orb_false_iff in E. destruct E as [_ E].
    repeat split; try discriminate.
    intros x Hx Hb Ht. unfold tuple in Ht. cbn in Ht.
    injection Ht as Ha Hp _ _.
    now apply (LookupLocal_false _ _ _ _ E x Hx Hp Ha). }
  destruct c as [|address|dev port|dev address port|dev la lp pa pp];
    cbn [do_call requested_port].
  - apply Heph.
  - apply Heph.
  - apply Hexp.
  - apply Hexp.
  - pose proof (Allocate_full_None d dev la lp pa pp) as HN.
    unfold Allocate_full in *.
    match goal with |- context [if ?b then _ else _] => destruct b end;
      cbn [fst snd] in *; [auto|].
    repeat split; try discriminate.
    intros x Hx Hb Ht.
    assert (Some (new_ptr (m_endPoints d),
                  SetPeer (Ipv6EndPoint_new la lp) pa pp) = None);
      [|discriminate].
    apply HN. exists x. split; [exact Hx|]. split; [|now right].
    rewrite Ht. reflexivity.
Qed.

(** ** Invariants along sequences of calls *)

Lemma NoDup_snoc {A : Type} (l : list A) (a : A) :
  NoDup l -> ~ In a l -> NoDup (l ++ [a]).
Proof.
  induction l as [|x l IH]; intros Hl Ha; cbn [app].
  - constructor; [intros []|constructor].
  - inversion Hl as [|? ? Hx Hl']; subst. constructor.
    + intros Hin. apply in_app_or in Hin.
      destruct Hin as [Hin|[<-|[]]]; [contradiction|]. apply Ha. now left.
    + apply IH; [exact Hl'|]. intros Hin. apply Ha. now right.
Qed.

Lemma erase_first_NoDup {B : Type} (g : Cell -> B) (ptr : EndPointPtr)
    (eps : EndPoints) :
  NoDup (map g eps) -> NoDup (map g (erase_first ptr eps)).
Proof.
  intros H.
  destruct (erase_first_cases ptr eps)
    as [->|(l1 & c & l2 & -> & _ & _ & ->)]; [exact H|].
  rewrite map_app in *. cbn [map] in H. now apply NoDup_remove_1 in H.
Qed.

Lemma erase_first_incl (ptr : EndPointPtr) (eps : EndPoints) (x : Cell) :
  In x (erase_first ptr eps) -> In x eps.
Proof.
  destruct (erase_first_cases ptr eps)
    as [->|(l1 & c & l2 & -> & _ & _ & ->)]; [auto|].
  intros Hin. apply in_app_or in Hin. apply in_or_app.
  destruct Hin; [now left|right; now right].
Qed.

(** A property of the collection that every call of a kind keeps holds
    after any sequence of calls of that kind. *)
Lemma run_ops_invariant (P : EndPoints -> Prop) (Q : op -> Prop) :
  (forall d o, Q o -> P (m_endPoints d) -> P (m_endPoints (do_op d o))) ->
  forall ops d,
    (forall o, In o ops -> Q o) ->
    P (m_endPoints d) -> P (m_endPoints (run_ops d ops)).
Proof.
  intros Hstep. induction ops as [|o ops IH]; intros d HQ HP; [exact HP|].
  cbn [run_ops fold_left]. apply IH.
  - intros o' Ho'. apply HQ. now right.
  - apply Hstep; [apply HQ; now left|exact HP].
Qed.

Lemma do_op_pointers (d : Ipv6EndPointDemux) (o : op) :
  NoDup (map fst (m_endPoints d)) ->
  NoDup (map fst (m_endPoints (do_op d o))).
Proof.
  intros H. destruct o as [c|ptr]; cbn [do_op].
  - destruct (do_call_effect d c) as (_ & _ & He).
    destruct (fst (do_call d c)) as [cell|]; [|now rewrite He].
    destruct He as (-> & Hp & _). rewrite map_app. cbn [map].
    apply NoDup_snoc; [exact H|]. rewrite Hp. intros Hin.
    apply in_map_iff in Hin. destruct Hin as (x & Hx & Hin).
    now apply (new_ptr_fresh _ x Hin).
  - now apply erase_first_NoDup.
Qed.

Lemma erase_first_gone (ptr : EndPointPtr) (eps : EndPoints) :
  NoDup (map fst eps) ->
  forall c, In c (erase_first ptr eps) -> fst c <> ptr.
Proof.
  induction eps as [|x rest IH]; intros H c Hin; [destruct Hin|].
  cbn [map] in H. inversion H as [|? ? Hx Hrest]; subst.
  cbn [erase_first] in Hin.
  destruct (Nat.eqb_spec (fst x) ptr) as [E|E].
  - intros Hc. apply Hx. rewrite E, <- Hc. now apply in_map.
  - destruct Hin as [<-|Hin]; [exact E|now apply IH].
Qed.

(** X4: the endpoints of the collection stay at pairwise different
    addresses along every sequence of allocations and deallocations, so
    that a [DeAllocate] leaves no endpoint at the address it was given. *)
Theorem pointers_stay_distinct
    (d : Ipv6EndPointDemux) (ops : list op) (endPoint : EndPointPtr) :
  NoDup (map fst (m_endPoints d)) ->
  NoDup (map fst (m_endPoints (run_ops d ops)))
  /\ (forall c, In c (m_endPoints (DeAllocate (run_ops d ops) endPoint)) ->
                fst c <> endPoint).
Proof.
  intros H.
  assert (Hn : NoDup (map fst (m_endPoints (run_ops d ops)))).
  { apply (run_ops_invariant (fun eps => NoDup (map fst eps))
             (fun _ => True)); auto.
    intros d' o _. apply do_op_pointers. }
  split; [exact Hn|].
  unfold DeAllocate. cbn [m_endPoints with_endPoints].
  now apply erase_first_gone.
Qed.

Lemma pointers_stay_distinct_witness :
  NoDup
    (map fst
       (m_endPoints
          (run_ops Ipv6EndPointDemux_new
             [ Op_call Call_Allocate; Op_call (Call_Allocate_addr 10);
               Op_DeAllocate 1%nat; Op_call Call_Allocate ]))).
Proof.
  apply (pointers_stay_distinct Ipv6EndPointDemux_new
           [ Op_call Call_Allocate; Op_call (Call_Allocate_addr 10);
             Op_DeAllocate 1%nat; Op_call Call_Allocate ] 1%nat).
  constructor.
Defined.

Lemma do_op_ports (d : Ipv6EndPointDemux) (o : op) :
  ephemeral_op o ->
  NoDup (map local_port (m_endPoints d)) ->
  NoDup (map local_port (m_endPoints (do_op d o))).
Proof.
  intros Ho H. destruct o as [c|ptr]; cbn [do_op ephemeral_op] in *.
  - destruct (do_call_effect d c) as (_ & _ & He).
    destruct (fst (do_call d c)) as [cell|]; [|now rewrite He].
    destruct He as (-> & _ & _ & _ & Hp). rewrite map_app. cbn [map].
    apply NoDup_snoc; [exact H|]. intros Hin.
    apply in_map_iff in Hin. destruct Hin as (x & Hx & Hin).
    now apply (Hp Ho x Hin).
  - now apply erase_first_NoDup.
Qed.

(** X3: when all ports are taken from the ephemeral range, no two
    endpoints share a local port: a collection with pairwise different
    local ports keeps them pairwise different along every sequence of
    [Allocate ()], [Allocate (address)] and [DeAllocate] calls. *)
Theorem ephemeral_ports_stay_distinct
    (d : Ipv6EndPointDemux) (ops : list op) :
  NoDup (map local_port (m_endPoints d)) ->
  (forall o, In o ops -> ephemeral_op o) ->
  NoDup (map local_port (m_endPoints (run_ops d ops))).
Proof.
  intros H Hops.
  apply (run_ops_invariant (fun eps => NoDup (map local_port eps))
           ephemeral_op); auto.
  intros d' o. apply do_op_ports.
Qed.

Lemma ephemeral_ports_stay_distinct_witness :
  NoDup
    (map local_port
       (m_endPoints
          (run_ops Ipv6EndPointDemux_new
             [ Op_call Call_Allocate; Op_call (Call_Allocate_addr 10);
               Op_DeAllocate 1%nat; Op_call Call_Allocate ]))).
Proof.
  apply (ephemeral_ports_stay_distinct Ipv6EndPointDemux_new
           [ Op_call Call_Allocate; Op_call (Call_Allocate_addr 10);
             Op_DeAllocate 1%nat; Op_call Call_Allocate ]).
  - constructor.
  - intros o [<-|[<-|[<-|[<-|[]]]]]; cbn; auto.
Defined.

(** ** What the best-match lookup returns *)

Section LookupResults.
Variables (daddr : Ipv6Address) (dport : Z).
Variables (saddr : Ipv6Address) (sport : Z).
Variable incomingInterface : option Ipv6Interface.

Local Abbreviation survives :=
  (spec_survives daddr dport saddr sport incomingInterface).
Local Abbreviation cond := (spec_bucket_cond daddr saddr sport).
Local Abbreviation bucket :=
  (spec_bucket daddr dport saddr sport incomingInterface).
Local Abbreviation highest :=
  (spec_highest daddr dport saddr sport incomingInterface).
Local Abbreviation qualifies' :=
  (qualifies daddr dport saddr sport incomingInterface).

Ltac unfold_spec :=
  unfold spec_survives, spec_bucket_cond, spec_device_ok, spec_local_exact,
    spec_local_wildcard, spec_local_all_routers, spec_peer_port_exact,
    spec_peer_port_wildcard, spec_peer_addr_exact, spec_peer_addr_wildcard
    in *.

Lemma bucket_In (n : nat) (eps : EndPoints) (c : Cell) :
  In c (bucket n eps) <->
  In c eps /\ survives (snd c) = true /\ cond n (snd c) = true.
Proof.
  unfold spec_bucket. rewrite filter_In, andb_true_iff. tauto.
Qed.

Lemma cond_range (n : nat) (e : Ipv6EndPoint) :
  cond n e = true -> (1 <= n <= 4)%nat.
Proof.
  destruct n as [|[|[|[|[|n]]]]]; cbn; try discriminate; lia.
Qed.

Lemma qualifies_survives (c : Cell) :
  qualifies' c <->
  survives (snd c) = true /\ exists n, cond n (snd c) = true.
Proof.
  unfold qualifies. split.
  - intros (Hrx & Hp & Hd & Hl & Hpeer). split.
    + unfold_spec. rewrite Hrx. rewrite !andb_true_iff, !orb_true_iff,
        !Z.eqb_eq.
      repeat split; try tauto.
      destruct Hd as [->|(itf & -> & E)]; [reflexivity|].
      destruct (GetBoundNetDevice (snd c)) as [dev|]; [|reflexivity].
      apply dev_eqb_eq. now symmetry.
    + destruct Hl as [Hl|Hl], Hpeer as [[H1 H2]|[H1 H2]].
      * exists 2%nat. unfold_spec.
        rewrite !andb_true_iff, orb_true_iff, !Z.eqb_eq. tauto.
      * exists 4%nat. unfold_spec. rewrite !andb_true_iff, !Z.eqb_eq. tauto.
      * exists 1%nat. unfold_spec. rewrite !andb_true_iff, !Z.eqb_eq. tauto.
      * exists 3%nat. unfold_spec. rewrite !andb_true_iff, !Z.eqb_eq. tauto.
  - intros (Hs & n & Hn). unfold_spec.
    rewrite !andb_true_iff, !orb_true_iff, !Z.eqb_eq in Hs.
    destruct Hs as (((((Hrx & Hp) & Hd) & Hl) & _) & _).
    repeat split; auto.
    + destruct (GetBoundNetDevice (snd c)) as [dev|]; [right|now left].
      destruct incomingInterface as [itf|]; [|discriminate].
      exists itf. apply dev_eqb_eq in Hd. auto.
    + destruct n as [|[|[|[|[|n]]]]]; cbn in Hn; try discriminate;
        rewrite !andb_true_iff, ?orb_true_iff, !Z.eqb_eq in Hn; tauto.
Qed.

Lemma highest_In_bucket (eps : EndPoints) (c : Cell) :
  In c (highest eps) -> exists n, In c (bucket n eps).
Proof.
  unfold spec_highest.
  destruct (bucket 4 eps) eqn:E4; [|rewrite <- E4; eauto].
  destruct (bucket 3 eps) eqn:E3; [|rewrite <- E3; eauto].
  destruct (bucket 2 eps) eqn:E2; [|rewrite <- E2; eauto].
  eauto.
Qed.

Lemma highest_is_bucket (eps : EndPoints) :
  exists n, (1 <= n <= 4)%nat /\ highest eps = bucket n eps.
Proof.
  unfold spec_highest.
  destruct (bucket 4 eps) eqn:E4; [|exists 4%nat; split; [lia|now rewrite E4]].
  destruct (bucket 3 eps) eqn:E3; [|exists 3%nat; split; [lia|now rewrite E3]].
  destruct (bucket 2 eps) eqn:E2; [|exists 2%nat; split; [lia|now rewrite E2]].
  exists 1%nat. split; [lia|reflexivity].
Qed.

Lemma highest_nil (eps : EndPoints) :
  highest eps = [] <-> forall n, bucket n eps = [].
Proof.
  split.
  - unfold spec_highest. intros H n.
    destruct (bucket 4 eps) eqn:E4; [|discriminate].
    destruct (bucket 3 eps) eqn:E3; [|discriminate].
    destruct (bucket 2 eps) eqn:E2; [|discriminate].
    destruct (bucket n eps) as [|c l] eqn:E; [reflexivity|].
    assert (Hin : In c (bucket n eps)) by (rewrite E; now left).
    apply bucket_In in Hin. destruct Hin as (_ & _ & Hn).
    apply cond_range in Hn.
    destruct n as [|[|[|[|[|n]]]]]; try lia; congruence.
  - intros H. unfold spec_highest. now rewrite !H.
Qed.

Lemma Lookup_Returned_qualifies (eps retval : EndPoints) (c : Cell) :
  Lookup eps daddr dport saddr sport incomingInterface = Returned retval ->
  In c retval -> In c eps /\ qualifies' c.
Proof.
  rewrite Lookup_spec.
  destruct (1 <? Z.of_nat (length (highest eps))); [discriminate|].
  intros [= <-] Hin. apply highest_In_bucket in Hin.
  destruct Hin as [n Hin]. apply bucket_In in Hin.
  split; [tauto|]. apply qualifies_survives. split; [tauto|]. exists n. tauto.
Qed.

(** Every endpoint of bucket [n] has the four fields of that bucket. *)
Lemma bucket_member_tuple (n : nat) (c : Cell) :
  survives (snd c) = true -> cond n (snd c) = true ->
  tuple c = bucket_tuple daddr dport saddr sport n.
Proof.
  intros Hs Hn. unfold tuple, bucket_tuple. unfold_spec.
  rewrite !andb_true_iff, !orb_true_iff, !Z.eqb_eq in Hs.
  destruct Hs as (((((_ & Hp) & _) & Hl) & _) & _).
  destruct n as [|[|[|[|[|n]]]]]; cbn in Hn; try discriminate;
    rewrite !andb_true_iff, ?orb_true_iff, !Z.eqb_eq in Hn.
  - destruct Hn as [[-> ->] ->]. now rewrite Hp.
  - destruct Hn as [[[Hx|Hx] ->] ->].
    + now rewrite Hx, Hp.
    + destruct Hl as [Hl|Hl]; [now rewrite Hl, Hp|].
      rewrite Hl in Hx. discriminate Hx.
  - destruct Hn as [[-> ->] ->]. now rewrite Hp.
  - destruct Hn as [[-> ->] ->]. now rewrite Hp.
Qed.
End LookupResults.

(** Two elements that pass a test, when the filtered list has two or
    more. *)
Lemma filter_two {A : Type} (f : A -> bool) (l : list A) :
  (2 <= length (filter f l))%nat ->
  exists l1 a l2 b l3,
    l = l1 ++ a :: l2 ++ b :: l3 /\ f a = true /\ f b = true.
Proof.
  induction l as [|x l IH]; cbn [filter length]; [lia|].
  destruct (f x) eqn:Hx; cbn [length]; intros H.
  - destruct (filter f l) as [|y ys] eqn:E; [cbn in H; lia|].
    assert (Hy : In y (filter f l)) by (rewrite E; now left).
    apply filter_In in Hy. destruct Hy as [Hin Hfy].
    destruct (in_split _ _ Hin) as (l2 & l3 & ->).
    exists [], x, l2, y, l3. auto.
  - destruct (IH H) as (l1 & a & l2 & b & l3 & -> & Ha & Hb).
    exists (x :: l1), a, l2, b, l3. auto.
Qed.

(** X8: every endpoint that [Lookup] returns is in the collection and
    qualifies for the arrival: it holds the destination port, its local
    address is the destination or the wildcard, and its peer is wholly
    the wildcard (port 0, address any) or wholly the source.  So an
    endpoint bound to the all-routers multicast address is returned only
    for arrivals sent to that address. *)
Theorem Lookup_returns_qualifying
    (eps : EndPoints) (daddr : Ipv6Address) (dport : Z)
    (saddr : Ipv6Address) (sport : Z) (itf : option Ipv6Interface)
    (retval : EndPoints) (c : Cell) :
  Lookup eps daddr dport saddr sport itf = Returned retval ->
  In c retval ->
  In c eps
  /\ qualifies daddr dport saddr sport itf c
  /\ (GetLocalAddress (snd c) = Ipv6Addr.GetAllRoutersMulticast ->
      daddr = Ipv6Addr.GetAllRoutersMulticast).
Proof.
  intros HL Hin.
  destruct (Lookup_Returned_qualifies _ _ _ _ _ _ _ _ HL Hin) as [H1 H2].
  split; [exact H1|]. split; [exact H2|]. intros E.
  destruct H2 as (_ & _ & _ & [Hl|Hl] & _); [congruence|].
  rewrite Hl in E. discriminate E.
Qed.

Lemma Lookup_returns_qualifying_witness :
  In (1%nat, Ipv6EndPoint_new Ipv6Addr.GetAny 80)
    [ (1%nat, Ipv6EndPoint_new Ipv6Addr.GetAny 80) ]
  /\ qualifies 10 80 20 1234 None
       (1%nat, Ipv6EndPoint_new Ipv6Addr.GetAny 80)
  /\ (GetLocalAddress (snd (1%nat, Ipv6EndPoint_new Ipv6Addr.GetAny 80))
      = Ipv6Addr.GetAllRoutersMulticast ->
      10 = Ipv6Addr.GetAllRoutersMulticast).
Proof.
  apply (Lookup_returns_qualifying
           [ (1%nat, Ipv6EndPoint_new Ipv6Addr.GetAny 80) ]
           10 80 20 1234 None
           [ (1%nat, Ipv6EndPoint_new Ipv6Addr.GetAny 80) ]).
  - reflexivity.
  - left; reflexivity.
Defined.

(** X11: [Lookup] returns the empty list exactly when no endpoint of the
    collection qualifies for the arrival; in that case it does not
    abort. *)
Theorem Lookup_empty_iff_none_qualifies
    (eps : EndPoints) (daddr : Ipv6Address) (dport : Z)
    (saddr : Ipv6Address) (sport : Z) (itf : option Ipv6Interface) :
  Lookup eps daddr dport saddr sport itf = Returned [] <->
  forall c, In c eps -> ~ qualifies daddr dport saddr sport itf c.
Proof.
  rewrite Lookup_spec. split.
  - destruct (1 <? Z.of_nat
                     (length (spec_highest daddr dport saddr sport itf eps)));
      [discriminate|].
    intros [= H] c Hin Hq. apply qualifies_survives in Hq.
    destruct Hq as (Hs & n & Hn).
    assert (Hb : In c (spec_bucket daddr dport saddr sport itf n eps))
      by (apply bucket_In; tauto).
    rewrite (proj1 (highest_nil _ _ _ _ _ eps) H n) in Hb. destruct Hb.
  - intros H.
    assert (E : spec_highest daddr dport saddr sport itf eps = []).
    { apply highest_nil. intros n.
      destruct (spec_bucket daddr dport saddr sport itf n eps) as [|c l] eqn:E;
        [reflexivity|].
      assert (Hin : In c (spec_bucket daddr dport saddr sport itf n eps))
        by (rewrite E; now left).
      apply bucket_In in Hin. destruct (H c (proj1 Hin)).
      apply qualifies_survives. split; [tauto|]. exists n. tauto. }
    rewrite E. reflexivity.
Qed.

Lemma Lookup_Aborted_pair
    (eps : EndPoints) (daddr : Ipv6Address) (dport : Z)
    (saddr : Ipv6Address) (sport : Z) (itf : option Ipv6Interface) :
  Lookup eps daddr dport saddr sport itf = Aborted ->
  exists l1 a l2 b l3,
    eps = l1 ++ a :: l2 ++ b :: l3
    /\ tuple a = tuple b
    /\ qualifies daddr dport saddr sport itf a
    /\ qualifies daddr dport saddr sport itf b.
Proof.
  rewrite Lookup_spec.
  destruct (Z.ltb_spec 1
              (Z.of_nat
                 (length (spec_highest daddr dport saddr sport itf eps))))
    as [Hlen|_]; [intros _|discriminate].
  destruct (highest_is_bucket daddr dport saddr sport itf eps)
    as (n & _ & E).
  rewrite E in Hlen. unfold spec_bucket in Hlen.
  match type of Hlen with context [@length ?A ?l] =>
    assert (H2 : (2 <= @length A l)%nat) by lia end.
  destruct (filter_two _ eps H2) as (l1 & a & l2 & b & l3 & -> & Ha & Hb).
  apply andb_true_iff in Ha, Hb. destruct Ha as [Ha1 Ha2], Hb as [Hb1 Hb2].
  exists l1, a, l2, b, l3. split; [reflexivity|]. split; [|split].
  - rewrite (bucket_member_tuple _ _ _ _ _ n a Ha1 Ha2).
    now rewrite (bucket_member_tuple _ _ _ _ _ n b Hb1 Hb2).
  - apply qualifies_survives. eauto.
  - apply qualifies_survives. eauto.
Qed.

Lemma Lookup_NoDup_tuple
    (eps : EndPoints) (daddr : Ipv6Address) (dport : Z)
    (saddr : Ipv6Address) (sport : Z) (itf : option Ipv6Interface) :
  NoDup (map tuple eps) ->
  Lookup eps daddr dport saddr sport itf <> Aborted.
Proof.
  intros Hn HA. apply Lookup_Aborted_pair in HA.
  destruct HA as (l1 & a & l2 & b & l3 & -> & Ht & _).
  rewrite map_app in Hn. cbn [map] in Hn. apply NoDup_remove_2 in Hn.
  apply Hn. apply in_or_app. right. rewrite map_app. apply in_or_app. right.
  rewrite Ht. now left.
Qed.

(** X12: [Lookup] aborts only when two endpoints at different places of
    the collection have the same local address, local port, peer address
    and peer port and both qualify for the arrival.  On a collection
    whose endpoints differ pairwise in these four fields it never
    aborts. *)
Theorem Lookup_aborts_only_on_equal_tuples
    (eps : EndPoints) (daddr : Ipv6Address) (dport : Z)
    (saddr : Ipv6Address) (sport : Z) (itf : option Ipv6Interface) :
  (Lookup eps daddr dport saddr sport itf = Aborted ->
   exists l1 a l2 b l3,
     eps = l1 ++ a :: l2 ++ b :: l3
     /\ tuple a = tuple b
     /\ qualifies daddr dport saddr sport itf a
     /\ qualifies daddr dport saddr sport itf b)
  /\ (NoDup (map tuple eps) ->
      Lookup eps daddr dport saddr sport itf <> Aborted).
Proof.
  split; [apply Lookup_Aborted_pair|apply Lookup_NoDup_tuple].
Qed.

Lemma Lookup_aborts_only_on_equal_tuples_witness :
  Lookup [ (1%nat, Ipv6EndPoint_new Ipv6Addr.GetAny 80);
           (2%nat, Ipv6EndPoint_new 10 80) ] 10 80 20 1234 None <> Aborted.
Proof.
  apply (proj2 (Lookup_aborts_only_on_equal_tuples
                  [ (1%nat, Ipv6EndPoint_new Ipv6Addr.GetAny 80);
                    (2%nat, Ipv6EndPoint_new 10 80) ] 10 80 20 1234 None)).
  cbn. constructor; [|constructor; [intros []|constructor]].
  intros [H|[]]. discriminate H.
Defined.

Lemma do_op_tuples (d : Ipv6EndPointDemux) (o : op) :
  all_unbound (m_endPoints d) /\ NoDup (map tuple (m_endPoints d)) ->
  all_unbound (m_endPoints (do_op d o))
  /\ NoDup (map tuple (m_endPoints (do_op d o))).
Proof.
  intros [Hu Hn]. destruct o as [c|ptr]; cbn [do_op].
  - destruct (do_call_effect d c) as (_ & _ & He).
    destruct (fst (do_call d c)) as [cell|]; [|now rewrite He].
    destruct He as (-> & _ & Hb & Ht & _). split.
    + intros x Hx. apply in_app_or in Hx.
      destruct Hx as [Hx|[<-|[]]]; auto.
    + rewrite map_app. cbn [map]. apply NoDup_snoc; [exact Hn|].
      intros Hin. apply in_map_iff in Hin. destruct Hin as (x & Hx & Hin).
      now apply (Ht x Hin (Hu x Hin)).
  - unfold DeAllocate. cbn [m_endPoints with_endPoints]. split.
    + intros x Hx. apply Hu. now apply erase_first_incl in Hx.
    + now apply erase_first_NoDup.
Qed.

(** X13: the duplicate checks of the allocation calls are enough to keep
    [Lookup] from aborting as long as no endpoint is changed after its
    allocation: starting with endpoints that are bound to no device and
    differ pairwise in their four fields (none at all, for a new
    demultiplexer), after any sequence of allocations and deallocations
    the endpoints are still bound to no device and still differ pairwise,
    and [Lookup] does not abort for any arrival. *)
Theorem allocations_keep_Lookup_unambiguous
    (d : Ipv6EndPointDemux) (ops : list op)
    (daddr : Ipv6Address) (dport : Z) (saddr : Ipv6Address) (sport : Z)
    (itf : option Ipv6Interface) :
  all_unbound (m_endPoints d) ->
  NoDup (map tuple (m_endPoints d)) ->
  all_unbound (m_endPoints (run_ops d ops))
  /\ NoDup (map tuple (m_endPoints (run_ops d ops)))
  /\ Lookup (m_endPoints (run_ops d ops)) daddr dport saddr sport itf
     <> Aborted.
Proof.
  intros Hu Hn.
  assert (H : all_unbound (m_endPoints (run_ops d ops))
              /\ NoDup (map tuple (m_endPoints (run_ops d ops)))).
  { apply (run_ops_invariant
             (fun eps => all_unbound eps /\ NoDup (map tuple eps))
             (fun _ => True)); auto.
    intros d' o _. apply do_op_tuples. }
  destruct H as [H1 H2]. repeat split; auto. now apply Lookup_NoDup_tuple.
Qed.

Lemma allocations_keep_Lookup_unambiguous_witness :
  Lookup
    (m_endPoints
       (run_ops Ipv6EndPointDemux_new
          [ Op_call (Call_Allocate_dev_port None 80);
            Op_call (Call_Allocate_dev_addr_port (Some 7%nat) 10 80);
            Op_call (Call_Allocate_full None 10 80 20 1234);
            Op_call (Call_Allocate_dev_port (Some 7%nat) 80) ]))
    10 80 20 1234 None <> Aborted.
Proof.
  apply (allocations_keep_Lookup_unambiguous Ipv6EndPointDemux_new
           [ Op_call (Call_Allocate_dev_port None 80);
             Op_call (Call_Allocate_dev_addr_port (Some 7%nat) 10 80);
             Op_call (Call_Allocate_full None 10 80 20 1234);
             Op_call (Call_Allocate_dev_port (Some 7%nat) 80) ]
           10 80 20 1234 None).
  - intros c [].
  - constructor.
Defined.

(** ** Endpoints on other ports *)

Lemma filter_filter_imp {A : Type} (f g : A -> bool) (l : list A) :
  (forall x, g x = true -> f x = true) ->
  filter g (filter f l) = filter g l.
Proof.
  intros H. induction l as [|x l IH]; [reflexivity|]. cbn [filter].
  destruct (f x) eqn:Hf; cbn [filter].
  - now rewrite IH.
  - destruct (g x) eqn:Hg; [|exact IH].
    rewrite (H x Hg) in Hf. discriminate.
Qed.

Lemma spec_bucket_port_filter (daddr : Ipv6Address) (dport : Z)
    (saddr : Ipv6Address) (sport : Z) (itf : option Ipv6Interface)
    (n : nat) (eps : EndPoints) :
  spec_bucket daddr dport saddr sport itf n (filter (port_match dport) eps) =
  spec_bucket daddr dport saddr sport itf n eps.
Proof.
  unfold spec_bucket. apply filter_filter_imp.
  intros x H. unfold spec_survives, port_match in *.
  rewrite !andb_true_iff in H. tauto.
Qed.

Lemma SimpleLookup_loop_port_filter (dst : Ipv6Address) (dport : Z)
    (src : Ipv6Address) (sport : Z) (eps : EndPoints) :
  forall genericity generic,
    SimpleLookup_loop (filter (port_match dport) eps) dst dport src sport
      genericity generic =
    SimpleLookup_loop eps dst dport src sport genericity generic.
Proof.
  induction eps as [|i rest IH]; intros genericity generic; [reflexivity|].
  cbn [filter]. destruct (port_match dport i) eqn:Hp.
  - rewrite !SimpleLookup_loop_cons, Hp. cbn [negb].
    destruct (exact_hit dst dport src sport i); [reflexivity|].
    destruct (wildcard_count i <? genericity); apply IH.
  - rewrite (SimpleLookup_loop_cons dst dport src sport i rest), Hp.
    cbn [negb]. apply IH.
Qed.

(** X9: endpoints on other local ports have no part in a lookup: both
    [Lookup] and [SimpleLookup] give the same outcome on the collection
    and on the collection cut down to the endpoints that hold the
    destination port, whether it is an abort, a list, an endpoint or
    none. *)
Theorem lookups_ignore_other_ports
    (eps : EndPoints) (daddr : Ipv6Address) (dport : Z)
    (saddr : Ipv6Address) (sport : Z) (itf : option Ipv6Interface) :
  Lookup (filter (port_match dport) eps) daddr dport saddr sport itf =
  Lookup eps daddr dport saddr sport itf
  /\ SimpleLookup (filter (port_match dport) eps) daddr dport saddr sport =
     SimpleLookup eps daddr dport saddr sport.
Proof.
  split.
  - rewrite !Lookup_spec. unfold spec_highest.
    now rewrite !spec_bucket_port_filter.
  - apply SimpleLookup_loop_port_filter.
Qed.

(** ** The two lookups on a full match *)

Lemma exact_hit_bucket4 (daddr : Ipv6Address) (dport : Z)
    (saddr : Ipv6Address) (sport : Z) (itf : option Ipv6Interface)
    (eps : EndPoints) (c : Cell) :
  In c eps ->
  IsRxEnabled (snd c) = true ->
  GetBoundNetDevice (snd c) = None ->
  exact_hit daddr dport saddr sport c = true ->
  In c (spec_bucket daddr dport saddr sport itf 4 eps).
Proof.
  intros Hin Hrx Hb He. apply filter_In. split; [exact Hin|].
  unfold exact_hit, port_match in He. rewrite !andb_true_iff in He.
  destruct He as [[[Hp Hl] Hpp] Hpa].
  unfold spec_survives, spec_bucket_cond, spec_device_ok, spec_local_exact,
    spec_peer_port_exact, spec_peer_addr_exact.
  rewrite Hrx, Hb, Hp, Hl, Hpp, Hpa. reflexivity.
Qed.

(** X10: on a collection whose endpoints all receive and are bound to
    no device, the two lookups agree on a full match: when [Lookup]
    returns an endpoint whose four fields are those of the arrival,
    [SimpleLookup] returns the same endpoint. *)
Theorem SimpleLookup_agrees_on_full_match
    (eps : EndPoints) (daddr : Ipv6Address) (dport : Z)
    (saddr : Ipv6Address) (sport : Z) (itf : option Ipv6Interface)
    (c : Cell) :
  (forall x, In x eps ->
             IsRxEnabled (snd x) = true
             /\ GetBoundNetDevice (snd x) = None) ->
  Lookup eps daddr dport saddr sport itf = Returned [c] ->
  exact_hit daddr dport saddr sport c = true ->
  SimpleLookup eps daddr dport saddr sport = Some c.
Proof.
  intros Hall HL Hc.
  assert (Hin : In c eps).
  { apply (Lookup_Returned_In _ _ _ _ _ _ _ _ HL). now left. }
  assert (Hb4 : In c (spec_bucket daddr dport saddr sport itf 4 eps)).
  { apply exact_hit_bucket4; auto; now apply Hall. }
  assert (E4 : spec_bucket daddr dport saddr sport itf 4 eps = [c]).
  { rewrite Lookup_spec in HL. unfold spec_highest in HL.
    destruct (spec_bucket daddr dport saddr sport itf 4 eps) as [|y l] eqn:E;
      [destruct Hb4|].
    rewrite <- E in HL.
    destruct (1 <? Z.of_nat
                     (length (spec_bucket daddr dport saddr sport itf 4 eps)));
      [discriminate|].
    injection HL as HL. now rewrite <- E. }
  destruct (first_split (exact_hit daddr dport saddr sport) eps)
    as (l1 & c' & l2 & E & Hc' & Hl1); [eauto|].
  assert (Hin' : In c' eps) by (rewrite E; apply in_or_app; right; now left).
  assert (Hb4' : In c' (spec_bucket daddr dport saddr sport itf 4 eps)).
  { apply exact_hit_bucket4; auto; now apply Hall. }
  rewrite E4 in Hb4'. destruct Hb4' as [<-|[]].
  unfold SimpleLookup. rewrite E. now apply loop_first_exact.
Qed.

Lemma SimpleLookup_agrees_on_full_match_witness :
  SimpleLookup
    [ (1%nat, Ipv6EndPoint_new Ipv6Addr.GetAny 80);
      (2%nat, SetPeer (Ipv6EndPoint_new 10 80) 20 1234) ] 10 80 20 1234 =
  Some (2%nat, SetPeer (Ipv6EndPoint_new 10 80) 20 1234).
Proof.
  apply (SimpleLookup_agrees_on_full_match
           [ (1%nat, Ipv6EndPoint_new Ipv6Addr.GetAny 80);
             (2%nat, SetPeer (Ipv6EndPoint_new 10 80) 20 1234) ]
           10 80 20 1234 None).
  - intros x [<-|[<-|[]]]; split; reflexivity.
  - reflexivity.
  - reflexivity.
Defined.

(** ** When the ephemeral scan succeeds *)

(** With a port [p] of the range that no endpoint holds, the scan from
    any place of the range settles on some port, if the counter allows
    the [n] steps from the cursor to [p]. *)
Lemma ephemeral_loop_finds (eps : EndPoints) (first last p : Z) :
  0 <= first -> last <= uint16_max -> first <= p <= last ->
  LookupPortLocal eps p = false ->
  forall (n fuel : nat) (count cur : Z),
    first <= cur <= last ->
    Z.of_nat n = (if cur <? p then p - cur else p - cur + (last - first + 1)) ->
    Z.of_nat n <= count + 1 ->
    (n <= fuel)%nat ->
    exists q, ephemeral_loop fuel eps first last count cur
              = Some (ScanFound q).
Proof.
  intros Hf Hl Hp Hfree.
  induction n as [|n IH]; intros fuel count cur Hc Hn Hcount Hfuel.
  - destruct (Z.ltb_spec cur p); lia.
  - destruct fuel as [|fuel]; [lia|]. cbn [ephemeral_loop].
    destruct (Z.ltb_spec count 0); [lia|].
    destruct (LookupPortLocal eps (next_port first last cur)) eqn:E;
      [|eauto].
    rewrite (next_port_succ first last cur Hf Hl Hc) in *.
    set (cand := if cur =? last then first else cur + 1) in *.
    assert (Hcand : first <= cand <= last)
      by (unfold cand; destruct (Z.eqb_spec cur last); lia).
    assert (Hne : cand <> p) by congruence.
    apply IH; [exact Hcand| |lia|lia].
    unfold cand in *.
    destruct (Z.eqb_spec cur last), (Z.ltb_spec cur p);
      match goal with |- context [?a <? p] => destruct (Z.ltb_spec a p) end;
      lia.
Qed.

Lemma ephemeral_loop_S (fuel : nat) (eps : EndPoints) (first last : Z)
    (count port : Z) :
  ephemeral_loop (S fuel) eps first last count port =
  if count <? 0 then Some ScanExhausted
  else if LookupPortLocal eps (next_port first last port)
       then ephemeral_loop fuel eps first last (count - 1)
              (next_port first last port)
       else Some (ScanFound (next_port first last port)).
Proof. reflexivity. Qed.

Lemma ephemeral_scan_finds (d : Ipv6EndPointDemux) (p : Z) :
  0 <= m_portFirst d -> m_portLast d <= uint16_max ->
  m_portFirst d <= p <= m_portLast d ->
  LookupPortLocal (m_endPoints d) p = false ->
  exists q, ephemeral_scan d = Some (ScanFound q).
Proof.
  intros Hf Hl Hp Hfree.
  unfold ephemeral_scan, ephemeral_fuel. rewrite ephemeral_loop_S.
  destruct (Z.ltb_spec (m_portLast d - m_portFirst d) 0); [lia|].
  set (cand := next_port (m_portFirst d) (m_portLast d) (m_ephemeral d)).
  assert (Hcand : m_portFirst d <= cand <= m_portLast d)
    by (apply next_port_in_range; lia).
  destruct (LookupPortLocal (m_endPoints d) cand) eqn:E; [|eauto].
  assert (Hne : cand <> p) by congruence.
  apply (ephemeral_loop_finds (m_endPoints d) (m_portFirst d) (m_portLast d)
           p Hf Hl Hp Hfree
           (Z.to_nat (if cand <? p then p - cand
                      else p - cand + (m_portLast d - m_portFirst d + 1))));
    auto; destruct (Z.ltb_spec cand p); lia.
Qed.

(** X1: for a range [first..last] with [0 < first] and [last <= 65535],
    wherever the cursor is, [Allocate ()] and [Allocate (address)] return
    null exactly when every port of the range is the local port of an
    endpoint; a failed call leaves the demultiplexer as it was. *)
Theorem Allocate_fails_iff_range_held
    (d : Ipv6EndPointDemux) (address : Ipv6Address) :
  0 < m_portFirst d -> m_portLast d <= uint16_max ->
  (fst (Allocate_addr d address) = None <-> range_held d)
  /\ (fst (Allocate d) = None <-> range_held d)
  /\ (fst (Allocate_addr d address) = None ->
      snd (Allocate_addr d address) = d).
Proof.
  intros Hf Hl.
  assert (H : forall a,
             (fst (Allocate_addr d a) = None <-> range_held d)
             /\ (fst (Allocate_addr d a) = None ->
                 snd (Allocate_addr d a) = d)).
  { intros a. unfold Allocate_addr, AllocateEphemeralPort.
    destruct (ephemeral_scan d) as [[|q]|] eqn:E.
    - cbn [fst snd Z.eqb]. split; [|reflexivity].
      split; [intros _|reflexivity]. intros p Hp.
      destruct (LookupPortLocal (m_endPoints d) p) eqn:Hfree; [reflexivity|].
      destruct (ephemeral_scan_finds d p) as [q Hq]; auto; [lia|congruence].
    - unfold ephemeral_scan in E. apply ephemeral_loop_found in E.
      destruct E as (Hfree & Hc & Hr).
      destruct (Z.eqb_spec q 0) as [|_]; [lia|]. cbn [fst].
      split; [|discriminate]. split; [discriminate|].
      intros Hheld. rewrite (Hheld q) in Hfree by lia. discriminate.
    - destruct (ephemeral_scan_total d) as [r Hr]. congruence. }
  destruct (H address) as [H1 H2]. repeat split; try tauto.
  - rewrite Allocate_is_Allocate_addr. apply H.
  - rewrite Allocate_is_Allocate_addr. apply H.
Qed.

Lemma Allocate_fails_iff_range_held_witness :
  snd (Allocate_addr
         (snd (run (fresh 49152 49153) [ Call_Allocate; Call_Allocate ])) 10)
  = snd (run (fresh 49152 49153) [ Call_Allocate; Call_Allocate ]).
Proof.
  apply (Allocate_fails_iff_range_held
           (snd (run (fresh 49152 49153) [ Call_Allocate; Call_Allocate ]))
           10).
  - cbn. lia.
  - cbn. unfold uint16_max. lia.
  - reflexivity.
Defined.

(** X2: an endpoint that [Allocate (address)] returns has the address,
    the wildcard peer, no bound device and the receive flag on; its local
    port lies in the range, is not 0 and was the local port of no endpoint
    before the call; the endpoint is appended to the collection and the
    cursor is left on its port. *)
Theorem Allocate_addr_returns_free_port
    (d d' : Ipv6EndPointDemux) (address : Ipv6Address) (c : Cell) :
  Allocate_addr d address = (Some c, d') ->
  snd c = Ipv6EndPoint_new address (local_port c)
  /\ m_portFirst d <= local_port c <= m_portLast d
  /\ local_port c <> 0
  /\ (forall x, In x (m_endPoints d) -> local_port x <> local_port c)
  /\ d' = push_back (with_ephemeral d (local_port c)) c.
Proof.
  intros HA. pose proof (Allocate_addr_Some _ _ _ _ HA) as H.
  destruct H as (Hc & Hne & Hfree & _ & _ & _ & _ & Hr).
  rewrite LookupPortLocal_false in Hfree.
  split; [now rewrite Hc at 1|]. repeat split; try tauto.
  unfold Allocate_addr, AllocateEphemeralPort in HA.
  destruct (ephemeral_scan d) as [[|q]|]; cbn [Z.eqb] in HA;
    try discriminate.
  destruct (q =? 0); [discriminate|].
  injection HA as <- <-. reflexivity.
Qed.

Lemma Allocate_addr_returns_free_port_witness :
  snd (2%nat, Ipv6EndPoint_new 10 49153) =
  Ipv6EndPoint_new 10 (local_port (2%nat, Ipv6EndPoint_new 10 49153)).
Proof.
  apply (Allocate_addr_returns_free_port
           (with_endPoints Ipv6EndPointDemux_new
              [ (1%nat, Ipv6EndPoint_new 10 80) ])
           (snd (Allocate_addr
                   (with_endPoints Ipv6EndPointDemux_new
                      [ (1%nat, Ipv6EndPoint_new 10 80) ]) 10)) 10).
  reflexivity.
Defined.

(** ** Binding, binding again, unbinding *)

Lemma DeAllocate_push_back (d : Ipv6EndPointDemux) (e : Ipv6EndPoint) :
  DeAllocate (push_back d (new_ptr (m_endPoints d), e))
    (new_ptr (m_endPoints d)) = d.
Proof.
  unfold DeAllocate, push_back. cbn [m_endPoints with_endPoints].
  rewrite erase_first_last by (intros c Hin; now apply new_ptr_fresh).
  now destruct d.
Qed.

(** X6: after [Allocate (device, address, port)] has returned an
    endpoint, the same address and port cannot be bound again, on
    whatever device, until that endpoint is deallocated; [DeAllocate] of
    the endpoint gives back the demultiplexer as it was before the
    binding, on which the binding succeeds again. *)
Theorem Allocate_dev_addr_port_round_trip
    (d d1 : Ipv6EndPointDemux) (boundNetDevice : NetDevicePtr)
    (address : Ipv6Address) (port : Z) (c : Cell) :
  Allocate_dev_addr_port d boundNetDevice address port = (Some c, d1) ->
  (forall dev, Allocate_dev_addr_port d1 dev address port = (None, d1))
  /\ DeAllocate d1 (fst c) = d
  /\ Allocate_dev_addr_port (DeAllocate d1 (fst c)) boundNetDevice address
       port = (Some c, d1).
Proof.
  intros HA. pose proof HA as HA'. unfold Allocate_dev_addr_port in HA.
  destruct (LookupLocal (m_endPoints d) boundNetDevice address port
            || LookupLocal (m_endPoints d) None address port);
    [discriminate|].
  injection HA as <- <-. cbn [fst].
  split; [|split].
  - intros dev. unfold Allocate_dev_addr_port.
    assert (E : LookupLocal
                  (m_endPoints
                     (push_back d
                        (new_ptr (m_endPoints d),
                         Ipv6EndPoint_new address port)))
                  None address port = true).
    { apply LookupLocal_true.
      exists (new_ptr (m_endPoints d), Ipv6EndPoint_new address port).
      split; [|now cbn].
      cbn [push_back m_endPoints with_endPoints]. apply in_or_app.
      right. now left. }
    rewrite E, orb_true_r. reflexivity.
  - apply DeAllocate_push_back.
  - rewrite DeAllocate_push_back. exact HA'.
Qed.

Lemma Allocate_dev_addr_port_round_trip_witness :
  DeAllocate (snd (Allocate_dev_addr_port Ipv6EndPointDemux_new
                     (Some 7%nat) 10 80)) 1%nat = Ipv6EndPointDemux_new.
Proof.
  apply (Allocate_dev_addr_port_round_trip Ipv6EndPointDemux_new
           (snd (Allocate_dev_addr_port Ipv6EndPointDemux_new
                   (Some 7%nat) 10 80))
           (Some 7%nat) 10 80 (1%nat, Ipv6EndPoint_new 10 80)).
  reflexivity.
Defined.

(** X7: [Allocate (device, localAddress, localPort, peerAddress,
    peerPort)] returns null, and changes nothing, exactly when an
    endpoint of the collection has these four fields and is bound to the
    caller's device or to none.  Otherwise it appends an endpoint with
    these four fields, after which the same call, on whatever device,
    returns null. *)
Theorem Allocate_full_refuses_duplicate
    (d : Ipv6EndPointDemux) (boundNetDevice : NetDevicePtr)
    (localAddress : Ipv6Address) (localPort : Z)
    (peerAddress : Ipv6Address) (peerPort : Z) :
  (fst (Allocate_full d boundNetDevice localAddress localPort peerAddress
          peerPort) = None <->
   exists c, In c (m_endPoints d)
             /\ full_conflict boundNetDevice localAddress localPort
                  peerAddress peerPort c)
  /\ (fst (Allocate_full d boundNetDevice localAddress localPort peerAddress
             peerPort) = None ->
      snd (Allocate_full d boundNetDevice localAddress localPort peerAddress
             peerPort) = d)
  /\ (forall c d1,
         Allocate_full d boundNetDevice localAddress localPort peerAddress
           peerPort = (Some c, d1) ->
         tuple c = (localAddress, localPort, peerAddress, peerPort)
         /\ m_endPoints d1 = m_endPoints d ++ [c]
         /\ forall dev,
             fst (Allocate_full d1 dev localAddress localPort peerAddress
                    peerPort) = None).
Proof.
  split; [apply Allocate_full_None|]. split.
  - unfold Allocate_full.
    match goal with |- context [if ?b then _ else _] => destruct b end;
      [reflexivity|discriminate].
  - intros c d1. unfold Allocate_full at 1.
    match goal with |- context [if ?b then _ else _] => destruct b end;
      [discriminate|].
    intros [= <- <-]. split; [reflexivity|]. split; [reflexivity|].
    intros dev. apply Allocate_full_None.
    exists (new_ptr (m_endPoints d),
            SetPeer (Ipv6EndPoint_new localAddress localPort) peerAddress
              peerPort).
    split.
    + cbn [push_back m_endPoints with_endPoints]. apply in_or_app.
      right. now left.
    + split; [reflexivity|now right].
Qed.

Lemma Allocate_full_refuses_duplicate_witness :
  snd (Allocate_full
         (with_endPoints Ipv6EndPointDemux_new
            [ (1%nat, SetPeer (Ipv6EndPoint_new 10 80) 20 1234) ])
         (Some 7%nat) 10 80 20 1234) =
  with_endPoints Ipv6EndPointDemux_new
    [ (1%nat, SetPeer (Ipv6EndPoint_new 10 80) 20 1234) ].
Proof.
  apply (proj1 (proj2 (Allocate_full_refuses_duplicate
                         (with_endPoints Ipv6EndPointDemux_new
                            [ (1%nat,
                               SetPeer (Ipv6EndPoint_new 10 80) 20 1234) ])
                         (Some 7%nat) 10 80 20 1234))).
  reflexivity.
Defined.

(** ** Allocation followed by lookup *)

Lemma filter_none {A : Type} (f : A -> bool) (l : list A) :
  (forall x, In x l -> f x = false) -> filter f l = [].
Proof.
  induction l as [|x l IH]; intros H; [reflexivity|]. cbn [filter].
  rewrite (H x (or_introl eq_refl)). apply IH. intros y Hy. apply H.
  now right.
Qed.

Lemma port_filter_snoc (eps : EndPoints) (c : Cell) :
  (forall x, In x eps -> local_port x <> local_port c) ->
  filter (port_match (local_port c)) (eps ++ [c]) = [c].
Proof.
  intros H. rewrite filter_app, filter_none.
  - cbn [filter app]. unfold port_match, local_port. now rewrite Z.eqb_refl.
  - intros x Hx. apply Z.eqb_neq. now apply H.
Qed.

(** X14: an endpoint that [Allocate (address)] has just returned is the
    only one on its port, so it gets the arrivals for that port:
    [SimpleLookup] returns it for every arrival on the port, and [Lookup]
    returns it, alone, for every arrival on the port that is sent to its
    address, or to any address when its address is the wildcard, as for
    [Allocate ()]. *)
Theorem Allocate_addr_then_lookup
    (d d1 : Ipv6EndPointDemux) (address : Ipv6Address) (c : Cell)
    (daddr saddr : Ipv6Address) (sport : Z) (itf : option Ipv6Interface) :
  Allocate_addr d address = (Some c, d1) ->
  SimpleLookup (m_endPoints d1) daddr (local_port c) saddr sport = Some c
  /\ (daddr = address \/ address = Ipv6Addr.GetAny ->
      Lookup (m_endPoints d1) daddr (local_port c) saddr sport itf
      = Returned [c]).
Proof.
  intros HA. apply Allocate_addr_Some in HA.
  destruct HA as (Hc & _ & Hfree & He & _).
  rewrite LookupPortLocal_false in Hfree.
  pose proof (port_filter_snoc (m_endPoints d) c Hfree) as Hf.
  rewrite He. split.
  - unfold SimpleLookup. rewrite <- SimpleLookup_loop_port_filter, Hf.
    cbn [SimpleLookup_loop]. unfold local_port.
    rewrite Z.eqb_refl. cbn [negb].
    destruct (Ipv6Addr.eqb (GetLocalAddress (snd c)) daddr
              && (GetPeerPort (snd c) =? sport)
              && Ipv6Addr.eqb (GetPeerAddress (snd c)) saddr);
      [reflexivity|].
    match goal with |- context [?a <? 3] =>
      assert (Hlt : (a <? 3) = true) end.
    { apply Z.ltb_lt.
      destruct (Ipv6Addr.eqb (GetLocalAddress (snd c)) Ipv6Addr.GetAny),
        (Ipv6Addr.eqb (GetPeerAddress (snd c)) Ipv6Addr.GetAny); lia. }
    now rewrite Hlt.
  - intros Hd.
    rewrite Lookup_spec. unfold spec_highest.
    rewrite <- (spec_bucket_port_filter _ _ _ _ _ 4 (m_endPoints d ++ [c])),
      <- (spec_bucket_port_filter _ _ _ _ _ 3 (m_endPoints d ++ [c])),
      <- (spec_bucket_port_filter _ _ _ _ _ 2 (m_endPoints d ++ [c])),
      <- (spec_bucket_port_filter _ _ _ _ _ 1 (m_endPoints d ++ [c])), Hf.
    unfold spec_bucket, spec_survives, spec_bucket_cond, spec_device_ok,
      spec_local_exact, spec_local_wildcard, spec_local_all_routers,
      spec_peer_port_exact, spec_peer_port_wildcard, spec_peer_addr_exact,
      spec_peer_addr_wildcard.
    cbn [filter]. unfold local_port. rewrite Hc.
    cbn [snd Ipv6EndPoint_new GetLocalAddress GetLocalPort GetPeerAddress
           GetPeerPort GetBoundNetDevice IsRxEnabled andb].
    unfold Ipv6Addr.GetAny in *. rewrite !Z.eqb_refl.
    destruct Hd as [Hd|Hd]; subst; rewrite ?Z.eqb_refl;
      repeat match goal with
             | |- context [Z.eqb ?a ?b] => destruct (Z.eqb_spec a b)
             end;
      try reflexivity; congruence.
Qed.

Lemma Allocate_addr_then_lookup_witness :
  SimpleLookup (m_endPoints (snd (Allocate_addr Ipv6EndPointDemux_new 10)))
    10 (local_port (1%nat, Ipv6EndPoint_new 10 49153)) 20 1234 =
  Some (1%nat, Ipv6EndPoint_new 10 49153).
Proof.
  apply (Allocate_addr_then_lookup Ipv6EndPointDemux_new
           (snd (Allocate_addr Ipv6EndPointDemux_new 10)) 10
           (1%nat, Ipv6EndPoint_new 10 49153) 10 20 1234 None).
  reflexivity.
Defined.

Lemma bucket_none (daddr : Ipv6Address) (dport : Z) (saddr : Ipv6Address)
    (sport : Z) (itf : option Ipv6Interface) (n : nat) (eps : EndPoints) :
  (forall x, In x eps ->
             tuple x <> bucket_tuple daddr dport saddr sport n) ->
  spec_bucket daddr dport saddr sport itf n eps = [].
Proof.
  intros H. apply filter_none. intros x Hx.
  destruct (spec_survives daddr dport saddr sport itf (snd x)) eqn:Hs;
    [|reflexivity].
  destruct (spec_bucket_cond daddr saddr sport n (snd x)) eqn:Hn;
    [|reflexivity].
  destruct (H x Hx). now apply (bucket_member_tuple _ _ _ _ itf).
Qed.

Lemma spec_bucket_app (daddr : Ipv6Address) (dport : Z)
    (saddr : Ipv6Address) (sport : Z) (itf : option Ipv6Interface)
    (n : nat) (l1 l2 : EndPoints) :
  spec_bucket daddr dport saddr sport itf n (l1 ++ l2) =
  spec_bucket daddr dport saddr sport itf n l1
  ++ spec_bucket daddr dport saddr sport itf n l2.
Proof. apply filter_app. Qed.

(** X15: on a collection of unconnected endpoints bound to no device, an
    endpoint that [Allocate (device, address, port)] has just returned
    gets the arrivals sent to its address and port: [Lookup] returns it,
    alone, whatever the source and the incoming interface are. *)
Theorem Allocate_dev_addr_port_then_lookup
    (d d1 : Ipv6EndPointDemux) (boundNetDevice : NetDevicePtr)
    (address : Ipv6Address) (port : Z) (c : Cell)
    (saddr : Ipv6Address) (sport : Z) (itf : option Ipv6Interface) :
  all_unbound (m_endPoints d) ->
  (forall x, In x (m_endPoints d) ->
             GetPeerPort (snd x) = 0
             /\ GetPeerAddress (snd x) = Ipv6Addr.GetAny) ->
  Allocate_dev_addr_port d boundNetDevice address port = (Some c, d1) ->
  Lookup (m_endPoints d1) address port saddr sport itf = Returned [c].
Proof.
  intros Hu Hpeer HA.
  assert (Hfree : forall x, In x (m_endPoints d) ->
                            ~ (GetLocalPort (snd x) = port
                               /\ GetLocalAddress (snd x) = address)).
  { intros x Hx [Hp Ha].
    assert (fst (Allocate_dev_addr_port d boundNetDevice address port)
            = None) as E; [|rewrite HA in E; discriminate].
    apply Allocate_dev_addr_port_None. exists x. split; [exact Hx|].
    unfold local_conflict. auto. }
  unfold Allocate_dev_addr_port in HA.
  destruct (LookupLocal _ _ _ _ || LookupLocal _ _ _ _); [discriminate|].
  injection HA as <- <-.
  cbn [push_back m_endPoints with_endPoints].
  set (c := (new_ptr (m_endPoints d), Ipv6EndPoint_new address port)).
  assert (H4 : spec_bucket address port saddr sport itf 4 (m_endPoints d)
               = []).
  { apply bucket_none. intros x Hx Ht. apply (Hfree x Hx).
    unfold tuple, bucket_tuple in Ht. now injection Ht. }
  assert (H2 : spec_bucket address port saddr sport itf 2 (m_endPoints d)
               = []).
  { apply bucket_none. intros x Hx Ht. apply (Hfree x Hx).
    unfold tuple, bucket_tuple in Ht. now injection Ht. }
  assert (Hc : forall n,
             spec_bucket address port saddr sport itf n [c] =
             if spec_bucket_cond address saddr sport n (snd c)
             then [c] else []).
  { intros n. unfold spec_bucket, spec_survives, spec_device_ok,
      spec_local_exact, spec_local_wildcard, spec_peer_port_exact,
      spec_peer_port_wildcard, spec_peer_addr_exact,
      spec_peer_addr_wildcard, c.
    cbn [filter snd Ipv6EndPoint_new GetLocalAddress GetLocalPort
           GetPeerAddress GetPeerPort GetBoundNetDevice IsRxEnabled].
    rewrite !Z.eqb_refl, !orb_true_r. reflexivity. }
  assert (K : forall n,
             spec_bucket_cond address saddr sport n (snd c) =
             match n with
             | 1%nat => address =? 0
             | 2%nat => true
             | 3%nat => (address =? 0) && (0 =? sport) && (0 =? saddr)
             | 4%nat => (0 =? sport) && (0 =? saddr)
             | _ => false
             end).
  { intros n. unfold spec_bucket_cond, spec_local_exact,
      spec_local_wildcard, spec_local_all_routers, spec_peer_port_exact,
      spec_peer_port_wildcard, spec_peer_addr_exact,
      spec_peer_addr_wildcard, c, Ipv6Addr.GetAny.
    cbn [snd Ipv6EndPoint_new GetLocalAddress GetLocalPort GetPeerAddress
           GetPeerPort].
    rewrite !Z.eqb_refl.
    destruct n as [|[|[|[|[|n]]]]]; cbn [andb orb]; try reflexivity.
    now rewrite !andb_true_r. }
  rewrite Lookup_spec. unfold spec_highest.
  rewrite !spec_bucket_app, H4, H2, !Hc, !K. cbn [app].
  destruct (Z.eqb_spec 0 sport) as [Hs|Hs], (Z.eqb_spec 0 saddr) as [Ha|Ha];
    cbn [andb]; rewrite ?andb_false_r; try reflexivity.
  all: rewrite bucket_none; [reflexivity|].
  all: intros x Hx Ht; unfold tuple, bucket_tuple in Ht;
    injection Ht as _ _ Hpa Hpp; destruct (Hpeer x Hx);
    unfold Ipv6Addr.GetAny in *; congruence.
Qed.

Lemma Allocate_dev_addr_port_then_lookup_witness :
  Lookup
    (m_endPoints
       (snd (Allocate_dev_addr_port
               (with_endPoints Ipv6EndPointDemux_new
                  [ (1%nat, Ipv6EndPoint_new Ipv6Addr.GetAny 80) ])
               (Some 7%nat) 10 80)))
    10 80 20 1234 None =
  Returned [ (2%nat, Ipv6EndPoint_new 10 80) ].
Proof.
  apply (Allocate_dev_addr_port_then_lookup
           (with_endPoints Ipv6EndPointDemux_new
              [ (1%nat, Ipv6EndPoint_new Ipv6Addr.GetAny 80) ])
           (snd (Allocate_dev_addr_port
                   (with_endPoints Ipv6EndPointDemux_new
                      [ (1%nat, Ipv6EndPoint_new Ipv6Addr.GetAny 80) ])
                   (Some 7%nat) 10 80))
           (Some 7%nat) 10 80 (2%nat, Ipv6EndPoint_new 10 80) 20 1234 None).
  - intros x [<-|[]]. reflexivity.
  - intros x [<-|[]]. split; reflexivity.
  - reflexivity.
Defined.

(** ** Deallocation followed by lookup *)

Lemma SimpleLookup_loop_In (dst : Ipv6Address) (dport : Z)
    (src : Ipv6Address) (sport : Z) (eps : EndPoints) (c : Cell) :
  forall genericity generic,
    SimpleLookup_loop eps dst dport src sport genericity generic = Some c ->
    In c eps \/ generic = Some c.
Proof.
  induction eps as [|i rest IH]; intros genericity generic; [now right|].
  rewrite SimpleLookup_loop_cons.
  destruct (negb (port_match dport i)).
  - intros H. destruct (IH _ _ H); [left; now right|now right].
  - destruct (exact_hit dst dport src sport i).
    + intros [= <-]. left. now left.
    + destruct (wildcard_count i <? genericity); intros H;
        destruct (IH _ _ H) as [H'|H']; try (left; now right);
        try (now right).
      injection H' as <-. left. now left.
Qed.

(** X16: a deallocated endpoint is not handed out again: in a collection
    whose endpoints are at pairwise different addresses, after
    [DeAllocate (endPoint)] neither [Lookup] nor [SimpleLookup] returns
    the endpoint at that address, for any arrival. *)
Theorem DeAllocate_then_lookup
    (d : Ipv6EndPointDemux) (endPoint : EndPointPtr)
    (daddr : Ipv6Address) (dport : Z) (saddr : Ipv6Address) (sport : Z)
    (itf : option Ipv6Interface) :
  NoDup (map fst (m_endPoints d)) ->
  (forall retval c,
      Lookup (m_endPoints (DeAllocate d endPoint)) daddr dport saddr sport
        itf = Returned retval ->
      In c retval -> fst c <> endPoint)
  /\ (forall c,
         SimpleLookup (m_endPoints (DeAllocate d endPoint)) daddr dport
           saddr sport = Some c ->
         fst c <> endPoint).
Proof.
  intros Hn.
  assert (Hgone : forall c, In c (m_endPoints (DeAllocate d endPoint)) ->
                            fst c <> endPoint).
  { unfold DeAllocate. cbn [m_endPoints with_endPoints].
    now apply erase_first_gone. }
  split.
  - intros retval c HL Hin. apply Hgone.
    now apply (Lookup_Returned_In _ _ _ _ _ _ _ _ HL).
  - intros c HS. apply Hgone. unfold SimpleLookup in HS.
    apply SimpleLookup_loop_In in HS. destruct HS; [auto|discriminate].
Qed.

Lemma DeAllocate_then_lookup_witness :
  fst (2%nat, Ipv6EndPoint_new Ipv6Addr.GetAny 80) <> 1%nat.
Proof.
  refine (proj2 (DeAllocate_then_lookup
                   (with_endPoints Ipv6EndPointDemux_new
                      [ (1%nat, Ipv6EndPoint_new 10 80);
                        (2%nat, Ipv6EndPoint_new Ipv6Addr.GetAny 80) ])
                   1%nat 10 80 20 1234 None _) _ _).
  - cbn. repeat constructor; cbn; intuition lia.
  - reflexivity.
Defined.

(** ** The order of the collection *)






